(** * Embedded_mpu6050: orientation viewer for an MPU6050 sensor

    A shallow embedding of the two viewer programs of the repository,

    - [src/mpu60503d.py]    (yaw, pitch, roll; a duck built from two spheres
                             and a cone), module [Mpu60503d];
    - [src/mpu_pitch_roll.py] (pitch, roll; a flat box drawn as a wire
                             frame), module [MpuPitchRoll];

    and the properties of their decoder, rotation composer, mesh factory,
    sample buffer and per-tick update.

    Numbers.  Python floats are read as real numbers ([R]): the trigonometric
    identities below are those of the exact functions, and rounding is not
    modelled.

    Text.  A Python [str] is a list of Unicode code points. *)

From Stdlib Require Import String Ascii.
From Stdlib Require Import Reals Lra Arith Lia NArith ZArith Bool List.
Import ListNotations.

Open Scope R_scope.

(** ** numpy arrays of shape (3,) and (3,3) *)

Module Linalg.

Record vec3 : Type := V3 { vx : R; vy : R; vz : R }.

(** A 3x3 array, row by row. *)
Record mat3 : Type := M3 { row0 : vec3; row1 : vec3; row2 : vec3 }.

Definition dot (a b : vec3) : R :=
  vx a * vx b + vy a * vy b + vz a * vz b.

Definition col0 (m : mat3) : vec3 := V3 (vx (row0 m)) (vx (row1 m)) (vx (row2 m)).
Definition col1 (m : mat3) : vec3 := V3 (vy (row0 m)) (vy (row1 m)) (vy (row2 m)).
Definition col2 (m : mat3) : vec3 := V3 (vz (row0 m)) (vz (row1 m)) (vz (row2 m)).

(** [m.T] *)
Definition transpose (m : mat3) : mat3 := M3 (col0 m) (col1 m) (col2 m).

(** [v @ m] for a row vector [v]. *)
Definition vecmat (v : vec3) (m : mat3) : vec3 :=
  V3 (dot v (col0 m)) (dot v (col1 m)) (dot v (col2 m)).

(** [a @ b] for two 3x3 arrays: row i of the product is (row i of a) @ b. *)
Definition matmul (a b : mat3) : mat3 :=
  M3 (vecmat (row0 a) b) (vecmat (row1 a) b) (vecmat (row2 a) b).

(** [m] applied to the column vector [v]. *)
Definition apply (m : mat3) (v : vec3) : vec3 :=
  V3 (dot (row0 m) v) (dot (row1 m) v) (dot (row2 m) v).

(** [a @ m] for an array [a] of shape (n,3), kept as the list of its rows. *)
Definition rows_matmul (a : list vec3) (m : mat3) : list vec3 :=
  map (fun v => vecmat v m) a.

Definition identity : mat3 := M3 (V3 1 0 0) (V3 0 1 0) (V3 0 0 1).

Definition det (m : mat3) : R :=
  let '(M3 (V3 a b c) (V3 d e f) (V3 g h i)) := m in
  a * (e * i - f * h) - b * (d * i - f * g) + c * (d * h - e * g).

(** [np.radians] *)
Definition radians (deg : R) : R := deg * PI / 180.

(** The elementary rotations about the local axes, angles in radians,
    right-handed. *)
Definition Rot_x (t : R) : mat3 :=
  M3 (V3 1 0 0) (V3 0 (cos t) (- sin t)) (V3 0 (sin t) (cos t)).
Definition Rot_y (t : R) : mat3 :=
  M3 (V3 (cos t) 0 (sin t)) (V3 0 1 0) (V3 (- sin t) 0 (cos t)).
Definition Rot_z (t : R) : mat3 :=
  M3 (V3 (cos t) (- sin t) 0) (V3 (sin t) (cos t) 0) (V3 0 0 1).

Definition orthonormal (m : mat3) : Prop :=
  matmul m (transpose m) = identity /\ det m = 1.

End Linalg.
Import Linalg.

(** ** Python values, exceptions and text *)

Module Py.

Inductive exn : Type := ValueError | TypeError | IndexError | AttributeError.

(** The outcome of running a piece of Python: a value, or a raised
    exception. *)
Inductive result (A : Type) : Type :=
| Ok (a : A)
| Raise (e : exn).
Arguments Ok {A} a.
Arguments Raise {A} e.

Definition bind {A B : Type} (m : result A) (k : A -> result B) : result B :=
  match m with
  | Ok a => k a
  | Raise e => Raise e
  end.

Notation "x <- m ;; k" := (bind m (fun x => k))
  (at level 61, m at next level, right associativity).
Notation "' p <- m ;; k" := (bind m (fun x => let p := x in k))
  (at level 61, p pattern, m at next level, right associativity).

(** A value that is [None] or a float. *)
Definition pyval : Type := option R.

(** Using a value where a float is needed ([f"{v:.1f}"], [np.radians(v)]). *)
Definition as_float (v : pyval) : result R :=
  match v with
  | Some x => Ok x
  | None => Raise TypeError
  end.

(** [l[i]] for [0 <= i]. *)
Definition getitem {A : Type} (l : list A) (i : nat) : result A :=
  match nth_error l i with
  | Some a => Ok a
  | None => Raise IndexError
  end.

(** [l[-1]] *)
Definition getlast {A : Type} (l : list A) : result A :=
  match rev l with
  | a :: _ => Ok a
  | [] => Raise IndexError
  end.

(** [l.pop(0)], giving the list that remains. *)
Definition pop0 {A : Type} (l : list A) : result (list A) :=
  match l with
  | _ :: rest => Ok rest
  | [] => Raise IndexError
  end.

(** [l[i] = a] *)
Fixpoint setitem {A : Type} (l : list A) (i : nat) (a : A) : result (list A) :=
  match l, i with
  | [], _ => Raise IndexError
  | _ :: rest, O => Ok (a :: rest)
  | b :: rest, S i' => rest' <- setitem rest i' a ;; Ok (b :: rest')
  end.

(** Text: a [str] is a list of code points. *)
Definition char : Type := N.
Definition str : Type := list char.

Definition of_string (s : string) : str :=
  map N_of_ascii (list_ascii_of_string s).

(** A line as the sensor sends it: the text and a newline. *)
Definition line_of (s : string) : str := of_string s ++ [10%N].

Definition comma : char := 44%N.

(** [str.isspace] on one character: the code points Python treats as
    white space. *)
Definition isspace (c : char) : bool :=
  ((9 <=? c) && (c <=? 13) || (28 <=? c) && (c <=? 32)
   || (c =? 133) || (c =? 160) || (c =? 5760)
   || (8192 <=? c) && (c <=? 8202)
   || (c =? 8232) || (c =? 8233) || (c =? 8239) || (c =? 8287)
   || (c =? 12288))%N%bool.

Fixpoint lstrip (s : str) : str :=
  match s with
  | c :: rest => if isspace c then lstrip rest else s
  | [] => []
  end.

Definition rstrip (s : str) : str := rev (lstrip (rev s)).

(** [s.strip()] *)
Definition strip (s : str) : str := rstrip (lstrip s).

(** [s.split(sep)] for a one-character separator: the fields between the
    occurrences of [sep]; never the empty list. *)
Fixpoint split (sep : char) (s : str) : list str :=
  match s with
  | [] => [[]]
  | c :: rest =>
      if (c =? sep)%N then [] :: split sep rest
      else match split sep rest with
           | f :: fs => (c :: f) :: fs
           | [] => [[c]]
           end
  end.

(** [float(s)] is a builtin: the programs are read for any [py_float], which
    gives the value of a text that [float] accepts and [None] where it raises
    [ValueError]. *)
Definition float (py_float : str -> option R) (s : str) : result R :=
  match py_float s with
  | Some x => Ok x
  | None => Raise ValueError
  end.

(** A reading of [float] on plain decimal literals, [[+-]digits[.digits]]
    with white space around them allowed, the format the sensor sends; it
    is used to run the programs on concrete lines.  On these literals it gives
    the value [float] gives; the other notations that [float] accepts
    (exponents, [inf], [nan], digit separators) are left out, and no line
    below uses them. *)
Definition digit (c : char) : option Z :=
  if ((48 <=? c) && (c <=? 57))%N then Some (Z.of_N (c - 48)) else None.

(** The digits of [s] appended to the numeral [acc]; [None] if one of them is
    not a digit. *)
Fixpoint digits (acc : Z) (s : str) : option Z :=
  match s with
  | [] => Some acc
  | c :: rest =>
      match digit c with
      | Some d => digits (10 * acc + d)%Z rest
      | None => None
      end
  end.

Definition unsigned_decimal (s : str) : option R :=
  match split 46%N s with
  | [ip] =>
      match ip with
      | [] => None
      | _ => option_map IZR (digits 0 ip)
      end
  | [ip; fp] =>
      match ip with
      | [] => None
      | _ =>
          match digits 0 ip, digits 0 fp with
          | Some i, Some f =>
              Some (IZR i + IZR f / IZR (10 ^ Z.of_nat (length fp)))
          | _, _ => None
          end
      end
  | _ => None
  end.

Definition decimal_float (s : str) : option R :=
  match strip s with
  | 45%N :: rest => option_map Ropp (unsigned_decimal rest)
  | 43%N :: rest => unsigned_decimal rest
  | rest => unsigned_decimal rest
  end.

End Py.
Import Py.

(** ** The serial port *)

Module Serial.

(** The port as the program sees it: the lines still to come, already
    decoded to text ([decode(errors="ignore")]), and the number of
    [readline] calls made so far. *)
Record serial : Type := MkSerial { pending : list str; reads : nat }.

(** [ser.readline().decode(errors="ignore")]: the next line, or the empty
    text when the read times out with nothing to deliver. *)
Definition readline (s : serial) : str * serial :=
  match pending s with
  | line :: rest => (line, MkSerial rest (S (reads s)))
  | [] => ([], MkSerial [] (S (reads s)))
  end.

(** The text the [i]-th coming [readline] returns. *)
Definition upcoming (s : serial) (i : nat) : str := nth i (pending s) [].

Definition open (feed : list str) : serial := MkSerial feed 0.

End Serial.
Import Serial.

(** ** src/mpu60503d.py *)

Module Mpu60503d.

Section Program.

Variable py_float : str -> option R.

(** [y, p, r = parts] *)
Definition unpack3 (parts : list str) : result (str * str * str) :=
  match parts with
  | [y; p; r] => Ok (y, p, r)
  | _ => Raise ValueError
  end.

(** The [try] block of [parse_line], lines 18-19. *)
Definition parse_line_try (line : str) : result (R * R * R) :=
  '(y, p, r) <- unpack3 (split comma (strip line)) ;;
  fy <- float py_float y ;;
  fp <- float py_float p ;;
  fr <- float py_float r ;;
  Ok (fy, fp, fr).

(** [parse_line(line)], lines 15-21; the bare [except] catches everything. *)
Definition parse_line (line : str) : pyval * pyval * pyval :=
  match parse_line_try line with
  | Ok (y, p, r) => (Some y, Some p, Some r)
  | Raise _ => (None, None, None)
  end.

(** [rotation_matrix(yaw, pitch, roll)], lines 24-36. *)
Definition rotation_matrix (yaw pitch roll : R) : mat3 :=
  let y := radians yaw in
  let p := radians pitch in
  let r := radians roll in
  let Rz := M3 (V3 (cos y) (- sin y) 0)
               (V3 (sin y) (cos y) 0)
               (V3 0 0 1) in
  let Ry := M3 (V3 (cos p) 0 (sin p))
               (V3 0 1 0)
               (V3 (- sin p) 0 (cos p)) in
  let Rx := M3 (V3 1 0 0)
               (V3 0 (cos r) (- sin r))
               (V3 0 (sin r) (cos r)) in
  matmul (matmul Rz Ry) Rx.

(** A face: the list of its vertices. *)
Definition face : Type := list vec3.

(** Entry [i] of [np.mgrid[0:stop:complex(0, res)]] along its axis: [res]
    points from 0 to [stop], both ends included. *)
Definition mgrid (stop : R) (res i : nat) : R :=
  INR i * (stop / INR (res - 1)).

(** [verts[i, j]] of [create_sphere], lines 41-45. *)
Definition sphere_vert (center : vec3) (radius : R) (res i j : nat) : vec3 :=
  let phi := mgrid PI res i in
  let theta := mgrid (2 * PI) res j in
  V3 (vx center + radius * sin phi * cos theta)
     (vy center + radius * sin phi * sin theta)
     (vz center + radius * cos phi).

(** [create_sphere(center, radius, res)], lines 39-52. *)
Definition create_sphere (center : vec3) (radius : R) (res : nat) : list face :=
  let verts := sphere_vert center radius res in
  flat_map (fun i =>
    map (fun j =>
      [verts i j; verts (i + 1)%nat j; verts (i + 1)%nat (j + 1)%nat;
       verts i (j + 1)%nat])
      (seq 0 (res - 1)))
    (seq 0 (res - 1)).

(** Entry [i] of [np.linspace(0, 2*np.pi, res, endpoint=False)]. *)
Definition linspace_open (res i : nat) : R := INR i * (2 * PI / INR res).

(** Point [i] of the base circle of [create_cone], lines 57-60. *)
Definition cone_base (base_center : vec3) (radius : R) (res i : nat) : vec3 :=
  let theta := linspace_open res i in
  V3 (vx base_center + radius * cos theta)
     (vy base_center + radius * sin theta)
     (vz base_center).

(** [tip], line 61. *)
Definition cone_tip (base_center : vec3) (height : R) : vec3 :=
  V3 (vx base_center) (vy base_center) (vz base_center + height).

(** [create_cone(base_center, height, radius, res)], lines 55-65. *)
Definition create_cone (base_center : vec3) (height radius : R) (res : nat)
  : list face :=
  let base := cone_base base_center radius res in
  let tip := cone_tip base_center height in
  map (fun i => [base i; base ((i + 1) mod res)%nat; tip]) (seq 0 res).

(** The duck, lines 69-71 ([res] defaults to 12). *)
Definition body_faces : list face := create_sphere (V3 0 0 0) 0.25 12.
Definition head_faces : list face := create_sphere (V3 0 0 0.35) 0.12 12.
Definition beak_faces : list face := create_cone (V3 0 0.18 0.35) 0.07 0.07 12.

(** What [update] reads and writes: the port, the three text overlays (the
    angle each one shows, [None] for the empty text), the vertices held by the
    three [Poly3DCollection]s, and the number of calls made on the drawing
    objects ([set_text], [set_verts]). *)
Record world : Type := MkWorld {
  ser : serial;
  yaw_text : option R;
  pitch_text : option R;
  roll_text : option R;
  body_poly : list face;
  head_poly : list face;
  beak_poly : list face;
  sink_calls : nat
}.

(** The three collections, lines 85-87. *)
Inductive collection : Type := Body | Head | Beak.

(** A statement of [update]: it changes the program state and then completes
    or raises; what was done before an exception stays done. *)
Definition stmt (A : Type) : Type := world -> world * result A.

Definition lift {A : Type} (r : result A) : stmt A := fun w => (w, r).

Definition andthen {A B : Type} (m : stmt A) (k : A -> stmt B) : stmt B :=
  fun w =>
    match m w with
    | (w', Ok a) => k a w'
    | (w', Raise e) => (w', Raise e)
    end.

Notation "x <~ m ;; k" := (andthen m (fun x => k))
  (at level 61, m at next level, right associativity).

(** [yaw_text.set_text(...)], [pitch_text.set_text(...)] and
    [roll_text.set_text(...)]. *)
Definition set_yaw_text (v : R) : stmt unit :=
  fun w => (MkWorld (ser w) (Some v) (pitch_text w) (roll_text w)
                    (body_poly w) (head_poly w) (beak_poly w)
                    (sink_calls w + 1), Ok tt).

Definition set_pitch_text (v : R) : stmt unit :=
  fun w => (MkWorld (ser w) (yaw_text w) (Some v) (roll_text w)
                    (body_poly w) (head_poly w) (beak_poly w)
                    (sink_calls w + 1), Ok tt).

Definition set_roll_text (v : R) : stmt unit :=
  fun w => (MkWorld (ser w) (yaw_text w) (pitch_text w) (Some v)
                    (body_poly w) (head_poly w) (beak_poly w)
                    (sink_calls w + 1), Ok tt).

(** [poly.get_verts()]: a [Poly3DCollection] has [set_verts] and no
    [get_verts], so looking the method up raises [AttributeError], whatever
    the collection holds. *)
Definition get_verts (poly : collection) : stmt (list face) :=
  fun w => (w, Raise AttributeError).

(** [poly.set_verts(new_verts)] *)
Definition set_verts (poly : collection) (new_verts : list face) : stmt unit :=
  fun w =>
    (match poly with
     | Body => MkWorld (ser w) (yaw_text w) (pitch_text w) (roll_text w)
                       new_verts (head_poly w) (beak_poly w) (sink_calls w + 1)
     | Head => MkWorld (ser w) (yaw_text w) (pitch_text w) (roll_text w)
                       (body_poly w) new_verts (beak_poly w) (sink_calls w + 1)
     | Beak => MkWorld (ser w) (yaw_text w) (pitch_text w) (roll_text w)
                       (body_poly w) (head_poly w) new_verts (sink_calls w + 1)
     end, Ok tt).

(** The program state when the animation starts, lines 85-95. *)
Definition startup (feed : list str) : world :=
  MkWorld (open feed) None None None body_faces head_faces beak_faces 0.

(** The [for _ in range(k)] loop of [update], lines 102-108: [Some] of the
    values held by [yaw, pitch, roll] at the [break], [None] when the loop
    runs to its [else]. *)
Fixpoint read_burst (k : nat) (s : serial)
  : serial * option (pyval * pyval * pyval) :=
  match k with
  | O => (s, None)
  | S k' =>
      let '(raw, s') := readline s in
      let '(yaw, pitch, roll) := parse_line raw in
      match yaw with
      | Some _ => (s', Some (yaw, pitch, roll))
      | None => read_burst k' s'
      end
  end.

(** [rotate_poly(poly)], lines 119-122: read the vertices of the collection
    with [get_verts], multiply each face by [R.T], and store the result with
    [set_verts]. *)
Definition rotate_poly (R : mat3) (poly : collection) : stmt unit :=
  verts <~ get_verts poly ;;
  let new_verts := map (fun v => rows_matmul v (transpose R)) verts in
  set_verts poly new_verts.

(** The part of [update] after the loop, lines 110-126, for the values the
    loop left in [yaw, pitch, roll]: each text overlay formats its value as a
    float, which raises on [None]. *)
Definition apply_sample (yaw pitch roll : pyval) : stmt unit :=
  yaw <~ lift (as_float yaw) ;;
  _ <~ set_yaw_text yaw ;;
  pitch <~ lift (as_float pitch) ;;
  _ <~ set_pitch_text pitch ;;
  roll <~ lift (as_float roll) ;;
  _ <~ set_roll_text roll ;;
  let R := rotation_matrix yaw pitch roll in
  _ <~ rotate_poly R Body ;;
  _ <~ rotate_poly R Head ;;
  rotate_poly R Beak.

(** [update(frame)], lines 100-126: the state it leaves and how it ends. *)
Definition update : stmt unit :=
  fun w =>
    let '(s, found) := read_burst 3 (ser w) in
    let w := MkWorld s (yaw_text w) (pitch_text w) (roll_text w)
                     (body_poly w) (head_poly w) (beak_poly w) (sink_calls w) in
    match found with
    | None => (w, Ok tt)
    | Some (yaw, pitch, roll) => apply_sample yaw pitch roll w
    end.

End Program.

End Mpu60503d.

(** ** src/mpu_pitch_roll.py *)

Module MpuPitchRoll.

Definition WINDOW : nat := 200.

(** [cube_definition], lines 22-31. *)
Definition cube_definition : list vec3 :=
  [ V3 (-1) (-1) (-0.1);
    V3 (-1) 1 (-0.1);
    V3 1 1 (-0.1);
    V3 1 (-1) (-0.1);
    V3 (-1) (-1) 0.1;
    V3 (-1) 1 0.1;
    V3 1 1 0.1;
    V3 1 (-1) 0.1 ].

(** [edges], lines 34-38. *)
Definition edges : list (nat * nat) :=
  [ (0, 1); (1, 2); (2, 3); (3, 0);
    (4, 5); (5, 6); (6, 7); (7, 4);
    (0, 4); (1, 5); (2, 6); (3, 7) ]%nat.

(** The data held by one [Line3D]. *)
Record line3d : Type := MkLine { xdata : list R; ydata : list R; zdata : list R }.

(** [rotation_matrix(pitch, roll)], lines 53-70. *)
Definition rotation_matrix (pitch roll : R) : mat3 :=
  let pitch := radians pitch in
  let roll := radians roll in
  let Rx := M3 (V3 1 0 0)
               (V3 0 (cos roll) (- sin roll))
               (V3 0 (sin roll) (cos roll)) in
  let Ry := M3 (V3 (cos pitch) 0 (sin pitch))
               (V3 0 1 0)
               (V3 (- sin pitch) 0 (cos pitch)) in
  matmul Ry Rx.

(** The sample buffer of lines 95-105, for one list and a capacity
    [window]: [buf.append(x)], then [buf.pop(0)] if the length exceeds
    [window]. *)
Definition push {A : Type} (window : nat) (x : A) (buf : list A) : list A :=
  let buf := buf ++ [x] in
  if (window <? length buf)%nat then tl buf else buf.

(** Lines 102-105: nothing when the buffer is empty, else [buf[-1]]. *)
Definition latest {A : Type} (buf : list A) : option A :=
  match buf with
  | [] => None
  | _ => match getlast buf with Ok a => Some a | Raise _ => None end
  end.

Section Program.

Variable py_float : str -> option R.

(** The [try] block of [parse_line], lines 76-81. *)
Definition parse_line_try (line : str) : result (pyval * pyval) :=
  let parts := split comma (strip line) in
  if (length parts <? 2)%nat then Ok (None, None)
  else
    p0 <- getitem parts 0 ;;
    pitch <- float py_float p0 ;;
    p1 <- getitem parts 1 ;;
    roll <- float py_float p1 ;;
    Ok (Some pitch, Some roll).

(** [parse_line(line)], lines 73-83. *)
Definition parse_line (line : str) : pyval * pyval :=
  match parse_line_try line with
  | Ok v => v
  | Raise _ => (None, None)
  end.

(** What [update] reads and writes: the port, the two buffers, the data of
    the twelve lines, and the number of calls made on the drawing objects
    ([set_data], [set_3d_properties]). *)
Record world : Type := MkWorld {
  ser : serial;
  pitch_buf : list pyval;
  roll_buf : list pyval;
  lines : list line3d;
  sink_calls : nat
}.

(** The program state when the animation starts, lines 12-15 and 40. *)
Definition startup (feed : list str) : world :=
  MkWorld (open feed) [] [] (map (fun _ => MkLine [] [] []) edges) 0.

(** The [for _ in range(k)] loop of [update], lines 88-100, on the port and
    the two buffers. *)
Fixpoint read_burst (window k : nat) (s : serial) (pbuf rbuf : list pyval)
  : result (serial * list pyval * list pyval) :=
  match k with
  | O => Ok (s, pbuf, rbuf)
  | S k' =>
      let '(raw, s') := readline s in
      match raw with
      | [] => read_burst window k' s' pbuf rbuf
      | _ =>
          let '(pitch, roll) := parse_line raw in
          match pitch with
          | None => read_burst window k' s' pbuf rbuf
          | Some _ =>
              let pbuf := pbuf ++ [pitch] in
              let rbuf := rbuf ++ [roll] in
              if (window <? length pbuf)%nat then
                pbuf <- pop0 pbuf ;;
                rbuf <- pop0 rbuf ;;
                read_burst window k' s' pbuf rbuf
              else read_burst window k' s' pbuf rbuf
          end
      end
  end.

(** The [for idx, edge in enumerate(edges)] loop, lines 111-115, from index
    [idx] on. *)
Fixpoint draw_edges (rotated : list vec3) (es : list (nat * nat)) (idx : nat)
  (ls : list line3d) (calls : nat) : result (list line3d * nat) :=
  match es with
  | [] => Ok (ls, calls)
  | (start, end_) :: es' =>
      a <- getitem rotated start ;;
      b <- getitem rotated end_ ;;
      ls <- setitem ls idx (MkLine [vx a; vx b] [vy a; vy b] [vz a; vz b]) ;;
      draw_edges rotated es' (S idx) ls (calls + 2)
  end.

(** [update(frame)], lines 86-117. *)
Definition update (w : world) : result world :=
  '(s, pbuf, rbuf) <- read_burst WINDOW 5 (ser w) (pitch_buf w) (roll_buf w) ;;
  match pbuf with
  | [] => Ok (MkWorld s pbuf rbuf (lines w) (sink_calls w))
  | _ =>
      pitch <- getlast pbuf ;;
      roll <- getlast rbuf ;;
      pitch <- as_float pitch ;;
      roll <- as_float roll ;;
      let R := rotation_matrix pitch roll in
      let rotated := rows_matmul cube_definition (transpose R) in
      '(ls, calls) <- draw_edges rotated edges 0 (lines w) (sink_calls w) ;;
      Ok (MkWorld s pbuf rbuf ls calls)
  end.

(** The animation driver: [update] once per tick. *)
Fixpoint run (ticks : nat) (w : world) : result world :=
  match ticks with
  | O => Ok w
  | S n => w' <- update w ;; run n w'
  end.

End Program.

End MpuPitchRoll.

(** ** Vocabulary of the specification *)

Module Spec.

Definition is_some {A : Type} (o : option A) : bool :=
  match o with Some _ => true | None => false end.

Section Decoder.

Variable py_float : str -> option R.

(** The comma-separated fields of a line, surrounding white space trimmed. *)
Definition fields (line : str) : list str := split comma (strip line).

Definition field (line : str) (i : nat) : str := nth i (fields line) [].

(** A numeric field: one that [float] accepts. *)
Definition numeric (f : str) : bool := is_some (py_float f).

(** Well-formed in 3-axis mode: exactly three fields, all numeric. *)
Definition well_formed3 (line : str) : bool :=
  (length (fields line) =? 3)%nat && forallb numeric (fields line).

(** Well-formed in 2-axis mode: at least two fields, the first two numeric. *)
Definition well_formed2 (line : str) : bool :=
  (2 <=? length (fields line))%nat && forallb numeric (firstn 2 (fields line)).

(** A line that the 3-axis [update] takes as a sample. *)
Definition decodes3 (line : str) : bool :=
  is_some (fst (fst (Mpu60503d.parse_line py_float line))).

(** The sample the 2-axis [update] takes from a line that was read, if
    any. *)
Definition sample2 (raw : str) : option (pyval * pyval) :=
  match raw with
  | [] => None
  | _ =>
      let '(pitch, roll) := MpuPitchRoll.parse_line py_float raw in
      match pitch with
      | Some _ => Some (pitch, roll)
      | None => None
      end
  end.

Definition decoded2 (raws : list str) : list (pyval * pyval) :=
  flat_map (fun raw => match sample2 raw with Some x => [x] | None => [] end)
           raws.

End Decoder.

(** The texts returned by the next [k] calls of [readline]. *)
Definition taken (s : serial) (k : nat) : list str :=
  map (upcoming s) (seq 0 k).

(** The list built by two nested [for] loops, [i] over [range(a, a + n)] and
    [j] over [range(m)]. *)
Definition nested {B : Type} (f : nat -> nat -> B) (a n m : nat) : list B :=
  flat_map (fun i => map (f i) (seq 0 m)) (seq a n).

(** The last [n] elements of a list. *)
Definition lastn {A : Type} (n : nat) (l : list A) : list A :=
  skipn (length l - n) l.

(** Pushing a run of samples, oldest first. *)
Definition push_all {A : Type} (window : nat) (xs buf : list A) : list A :=
  fold_left (fun b x => MpuPitchRoll.push window x b) xs buf.

(** A mesh transformed by [m]: same faces, same vertex order, every vertex
    replaced by [m] applied to it. *)
Definition transformed (m : mat3) (mesh : list (list vec3)) : list (list vec3) :=
  map (map (apply m)) mesh.

(** The wire frame of the box under pitch and roll: for each edge, the
    coordinates of its two rotated end points. *)
Definition wireframe (pitch roll : R) : list MpuPitchRoll.line3d :=
  let m := MpuPitchRoll.rotation_matrix pitch roll in
  let corner i := apply m (nth i MpuPitchRoll.cube_definition (V3 0 0 0)) in
  map (fun '(a, b) =>
         MpuPitchRoll.MkLine [vx (corner a); vx (corner b)]
                             [vy (corner a); vy (corner b)]
                             [vz (corner a); vz (corner b)])
      MpuPitchRoll.edges.

(** The states of the 2-axis program between ticks: the buffers have one
    length and hold floats, there are as many lines as edges, and once a
    sample is buffered the lines show the latest one. *)
Definition steady (w : MpuPitchRoll.world) : Prop :=
  length (MpuPitchRoll.pitch_buf w) = length (MpuPitchRoll.roll_buf w) /\
  Forall (fun v => v <> None) (MpuPitchRoll.pitch_buf w) /\
  Forall (fun v => v <> None) (MpuPitchRoll.roll_buf w) /\
  length (MpuPitchRoll.lines w) = length MpuPitchRoll.edges /\
  (forall p r,
      MpuPitchRoll.latest (MpuPitchRoll.pitch_buf w) = Some (Some p) ->
      MpuPitchRoll.latest (MpuPitchRoll.roll_buf w) = Some (Some r) ->
      MpuPitchRoll.lines w = wireframe p r).

(** Sensor output used to run the programs. *)

(** Two malformed lines, then a sample (3-axis). *)
Definition noisy_feed : list str :=
  map line_of ["garbage"; "1,2"; "5,10,15"]%string.

(** Two quarter turns of yaw, one per tick (3-axis). *)
Definition quarter_turns : list str :=
  map line_of ["90,0,0"; "90,0,0"]%string.

(** Five samples waiting in the port (2-axis). *)
Definition backlog : list str :=
  map line_of ["1,2"; "3,4"; "5,6"; "7,8"; "9,10"]%string.

(** Three malformed lines (3-axis). *)
Definition malformed_feed : list str :=
  map line_of ["a,b,c"; "1;2;3"; "1,2,"]%string.

(** One sample, then silence (2-axis). *)
Definition one_sample : list str := [line_of "1,2"].

End Spec.
Import Spec.

(** ** Vocabulary for meshes, distances and runs *)

Module Shape.

(** Squared length of a vector, and squared distance between two points. *)
Definition norm2 (v : vec3) : R := dot v v.

Definition vsub (a b : vec3) : vec3 :=
  V3 (vx a - vx b) (vy a - vy b) (vz a - vz b).

Definition dist2 (a b : vec3) : R := norm2 (vsub a b).

(** The point of the sphere of the given centre and radius at polar angle
    [phi], measured from the z axis, and azimuth [theta], measured from the x
    axis. *)
Definition spherical (center : vec3) (radius phi theta : R) : vec3 :=
  V3 (vx center + radius * sin phi * cos theta)
     (vy center + radius * sin phi * sin theta)
     (vz center + radius * cos phi).

(** The point at angle [theta] of the circle of the given centre and radius
    in the plane through the centre parallel to the x-y plane. *)
Definition circular (center : vec3) (radius theta : R) : vec3 :=
  V3 (vx center + radius * cos theta)
     (vy center + radius * sin theta)
     (vz center).

(** Angle [i] of [res] angles evenly spaced from 0 to [stop], both
    included. *)
Definition grid_angle (stop : R) (res i : nat) : R :=
  stop * INR i / INR (res - 1).

(** Angle [i] of [res] angles evenly spaced over a full turn, from 0, the
    full turn itself left out. *)
Definition fan_angle (res i : nat) : R := 2 * PI * INR i / INR res.

(** White space only. *)
Definition blank (s : str) : Prop := Forall (fun c => isspace c = true) s.

(** The lines as created at startup: no data. *)
Definition blank_lines : list MpuPitchRoll.line3d :=
  map (fun _ => MpuPitchRoll.MkLine [] [] []) MpuPitchRoll.edges.

End Shape.
Import Shape.

(** * Properties *)

(** ** Matrix algebra *)

Section MatrixAlgebra.

Lemma vec3_eq (a b : vec3) :
  vx a = vx b -> vy a = vy b -> vz a = vz b -> a = b.
Proof. destruct a, b; simpl; intros; subst; reflexivity. Qed.

Lemma mat3_eq (a b : mat3) :
  row0 a = row0 b -> row1 a = row1 b -> row2 a = row2 b -> a = b.
Proof. destruct a, b; simpl; intros; subst; reflexivity. Qed.

Ltac mat_ring :=
  repeat match goal with
         | m : mat3 |- _ => destruct m
         | v : vec3 |- _ => destruct v
         end;
  unfold matmul, transpose, vecmat, apply, col0, col1, col2, dot, det, identity;
  simpl;
  first [ ring | apply mat3_eq; apply vec3_eq; simpl; ring | apply vec3_eq; simpl; ring ].

Lemma matmul_assoc (a b c : mat3) :
  matmul (matmul a b) c = matmul a (matmul b c).
Proof. mat_ring. Qed.

Lemma transpose_matmul (a b : mat3) :
  transpose (matmul a b) = matmul (transpose b) (transpose a).
Proof. mat_ring. Qed.

Lemma matmul_identity_r (a : mat3) : matmul a identity = a.
Proof. mat_ring. Qed.

Lemma det_matmul (a b : mat3) : det (matmul a b) = det a * det b.
Proof. mat_ring. Qed.

(** [v @ m.T] is [m] applied to [v]: the row-vector form used by the
    programs and the column-vector form of the specification agree. *)
Lemma vecmat_transpose (v : vec3) (m : mat3) :
  vecmat v (transpose m) = apply m v.
Proof. mat_ring. Qed.

Lemma apply_matmul (a b : mat3) (v : vec3) :
  apply (matmul a b) v = apply a (apply b v).
Proof. mat_ring. Qed.

Lemma orthonormal_matmul (a b : mat3) :
  orthonormal a -> orthonormal b -> orthonormal (matmul a b).
Proof.
  intros [Ha Da] [Hb Db]; split.
  - rewrite transpose_matmul, matmul_assoc.
    rewrite <- (matmul_assoc b), Hb.
    replace (matmul identity (transpose a)) with (transpose a) by mat_ring.
    exact Ha.
  - rewrite det_matmul, Da, Db; ring.
Qed.

Lemma sq_sum (t : R) : cos t * cos t + sin t * sin t = 1.
Proof. generalize (sin2_cos2 t); unfold Rsqr; lra. Qed.

Lemma orthonormal_Rot_x (t : R) : orthonormal (Rot_x t).
Proof.
  pose proof (sq_sum t) as H.
  split; unfold Rot_x; [ apply mat3_eq; apply vec3_eq | ];
    unfold matmul, transpose, vecmat, col0, col1, col2, dot, det, identity;
    simpl; nra.
Qed.

Lemma orthonormal_Rot_y (t : R) : orthonormal (Rot_y t).
Proof.
  pose proof (sq_sum t) as H.
  split; unfold Rot_y; [ apply mat3_eq; apply vec3_eq | ];
    unfold matmul, transpose, vecmat, col0, col1, col2, dot, det, identity;
    simpl; nra.
Qed.

Lemma orthonormal_Rot_z (t : R) : orthonormal (Rot_z t).
Proof.
  pose proof (sq_sum t) as H.
  split; unfold Rot_z; [ apply mat3_eq; apply vec3_eq | ];
    unfold matmul, transpose, vecmat, col0, col1, col2, dot, det, identity;
    simpl; nra.
Qed.

End MatrixAlgebra.

(** ** The rotation composer *)

Lemma rotation_matrix3_factors (yaw pitch roll : R) :
  Mpu60503d.rotation_matrix yaw pitch roll =
  matmul (matmul (Rot_z (radians yaw)) (Rot_y (radians pitch)))
         (Rot_x (radians roll)).
Proof. reflexivity. Qed.

Lemma rotation_matrix2_factors (pitch roll : R) :
  MpuPitchRoll.rotation_matrix pitch roll =
  matmul (Rot_y (radians pitch)) (Rot_x (radians roll)).
Proof. reflexivity. Qed.

(** C4.  For all real angles (degrees), the matrix returned by
    [rotation_matrix] is orthonormal, [R @ R.T = I] and [det R = 1], in the
    three-axis program and in the two-axis program. *)
Theorem C4_rotation_matrix_orthonormal :
  (forall yaw pitch roll : R,
      let m := Mpu60503d.rotation_matrix yaw pitch roll in
      matmul m (transpose m) = identity /\ det m = 1) /\
  (forall pitch roll : R,
      let m := MpuPitchRoll.rotation_matrix pitch roll in
      matmul m (transpose m) = identity /\ det m = 1).
Proof.
  split; intros; subst m.
  - rewrite rotation_matrix3_factors.
    apply orthonormal_matmul; [ apply orthonormal_matmul | ];
      auto using orthonormal_Rot_x, orthonormal_Rot_y, orthonormal_Rot_z.
  - rewrite rotation_matrix2_factors.
    apply orthonormal_matmul;
      auto using orthonormal_Rot_x, orthonormal_Rot_y.
Qed.

(** The composition order, on vectors: roll first, then pitch, then yaw. *)
Lemma rotation_matrix3_apply (yaw pitch roll : R) (v : vec3) :
  apply (Mpu60503d.rotation_matrix yaw pitch roll) v =
  apply (Rot_z (radians yaw))
        (apply (Rot_y (radians pitch)) (apply (Rot_x (radians roll)) v)).
Proof. rewrite rotation_matrix3_factors, !apply_matmul; reflexivity. Qed.

Lemma rotation_matrix2_apply (pitch roll : R) (v : vec3) :
  apply (MpuPitchRoll.rotation_matrix pitch roll) v =
  apply (Rot_y (radians pitch)) (apply (Rot_x (radians roll)) v).
Proof. rewrite rotation_matrix2_factors, apply_matmul; reflexivity. Qed.

Lemma radians_0 : radians 0 = 0.
Proof. unfold radians; lra. Qed.

Lemma radians_90 : radians 90 = PI / 2.
Proof. unfold radians; lra. Qed.

(** A quarter turn of yaw: (x, y, z) goes to (-y, x, z). *)
Lemma quarter_yaw (v : vec3) :
  apply (Mpu60503d.rotation_matrix 90 0 0) v = V3 (- vy v) (vx v) (vz v).
Proof.
  rewrite rotation_matrix3_apply, radians_0, radians_90.
  unfold Rot_x, Rot_y, Rot_z, apply, dot; simpl.
  rewrite cos_0, sin_0, cos_PI2, sin_PI2.
  apply vec3_eq; simpl; ring.
Qed.

(** C5.  [rotation_matrix] composes in the documented order: the 3-axis
    program returns Rz(yaw) . Ry(pitch) . Rx(roll), so that roll acts on a
    vertex first and yaw last; the 2-axis program returns Ry(pitch) .
    Rx(roll), roll first and then pitch; and in the 3-axis program yaw = 90,
    pitch = 0, roll = 0 sends the vertex (1,0,0) to (0,1,0), also in the
    row-vector form [v @ R.T] that [update] uses. *)
Theorem C5_composition_order :
  (forall yaw pitch roll : R,
      Mpu60503d.rotation_matrix yaw pitch roll =
      matmul (matmul (Rot_z (radians yaw)) (Rot_y (radians pitch)))
             (Rot_x (radians roll))) /\
  (forall (yaw pitch roll : R) (v : vec3),
      apply (Mpu60503d.rotation_matrix yaw pitch roll) v =
      apply (Rot_z (radians yaw))
            (apply (Rot_y (radians pitch)) (apply (Rot_x (radians roll)) v))) /\
  (forall pitch roll : R,
      MpuPitchRoll.rotation_matrix pitch roll =
      matmul (Rot_y (radians pitch)) (Rot_x (radians roll))) /\
  (forall (pitch roll : R) (v : vec3),
      apply (MpuPitchRoll.rotation_matrix pitch roll) v =
      apply (Rot_y (radians pitch)) (apply (Rot_x (radians roll)) v)) /\
  apply (Mpu60503d.rotation_matrix 90 0 0) (V3 1 0 0) = V3 0 1 0 /\
  vecmat (V3 1 0 0) (transpose (Mpu60503d.rotation_matrix 90 0 0)) = V3 0 1 0.
Proof.
  repeat split.
  - apply rotation_matrix3_apply.
  - apply rotation_matrix2_apply.
  - rewrite quarter_yaw; simpl; f_equal; lra.
  - rewrite vecmat_transpose, quarter_yaw; simpl; f_equal; lra.
Qed.

(** ** The frame decoder *)

Section FrameDecoder.

Variable py_float : str -> option R.

Lemma parse_line3_spec (line : str) :
  Mpu60503d.parse_line py_float line =
  if well_formed3 py_float line
  then (py_float (field line 0), py_float (field line 1), py_float (field line 2))
  else (None, None, None).
Proof.
  unfold Mpu60503d.parse_line, Mpu60503d.parse_line_try, well_formed3, field,
    numeric, fields, float.
  destruct (split comma (strip line)) as [|a [|b [|c [|d l]]]]; simpl;
    try reflexivity.
  destruct (py_float a); simpl; [ | reflexivity ].
  destruct (py_float b); simpl; [ | reflexivity ].
  destruct (py_float c); reflexivity.
Qed.

Lemma parse_line2_spec (line : str) :
  MpuPitchRoll.parse_line py_float line =
  if well_formed2 py_float line
  then (py_float (field line 0), py_float (field line 1))
  else (None, None).
Proof.
  unfold MpuPitchRoll.parse_line, MpuPitchRoll.parse_line_try, well_formed2,
    field, numeric, fields, float, getitem.
  destruct (split comma (strip line)) as [|a [|b l]]; simpl; try reflexivity.
  destruct (py_float a); simpl; [ | reflexivity ].
  destruct (py_float b); reflexivity.
Qed.

(** All or nothing: three floats, or three times [None]. *)
Lemma parse_line3_all_or_nothing (line : str) :
  (exists y p r,
      Mpu60503d.parse_line py_float line = (Some y, Some p, Some r)) \/
  Mpu60503d.parse_line py_float line = (None, None, None).
Proof.
  unfold Mpu60503d.parse_line.
  destruct (Mpu60503d.parse_line_try py_float line) as [[[y p] r]|e]; eauto.
Qed.

Lemma parse_line2_all_or_nothing (line : str) :
  (exists p r, MpuPitchRoll.parse_line py_float line = (Some p, Some r)) \/
  MpuPitchRoll.parse_line py_float line = (None, None).
Proof.
  unfold MpuPitchRoll.parse_line, MpuPitchRoll.parse_line_try.
  destruct (length (split comma (strip line)) <? 2)%nat; auto.
  destruct (getitem (split comma (strip line)) 0) as [p0|]; simpl; auto.
  destruct (float py_float p0); simpl; auto.
  destruct (getitem (split comma (strip line)) 1) as [p1|]; simpl; auto.
  destruct (float py_float p1); simpl; eauto.
Qed.

End FrameDecoder.

Lemma split_nonempty (sep : char) (s : str) : split sep s <> [].
Proof.
  destruct s as [|c rest]; simpl; [ discriminate | ].
  destruct (c =? sep)%N; [ discriminate | ].
  destruct (split sep rest); discriminate.
Qed.

(** The example line of the wire format, read with [decimal_float]. *)
Lemma parse_line3_example :
  Mpu60503d.parse_line decimal_float (line_of "10.5,-3.2,90.0") =
  (Some 10.5, Some (-3.2), Some 90.0).
Proof.
  cbv -[IZR Rplus Rmult Rdiv Ropp Rinv Z.pow].
  change (10 ^ 1)%Z with 10%Z.
  repeat match goal with
         | |- (_, _) = (_, _) => f_equal
         | |- Some _ = Some _ => f_equal
         end; lra.
Qed.

(** C6.  [parse_line] is a total function of the line and raises nothing:
    on a well-formed line (exactly three numeric fields in the 3-axis program;
    at least two fields, the first two numeric, in the 2-axis program) it
    returns the values [float] gives for the fields, and on every other line,
    the empty one included, it returns [None] in every position; no result
    mixes floats and [None]. *)
Theorem C6_parse_line_total :
  forall (py_float : str -> option R) (line : str),
    (Mpu60503d.parse_line py_float line =
       (if well_formed3 py_float line
        then (py_float (field line 0), py_float (field line 1),
              py_float (field line 2))
        else (None, None, None)) /\
     ((exists y p r,
          Mpu60503d.parse_line py_float line = (Some y, Some p, Some r)) \/
      Mpu60503d.parse_line py_float line = (None, None, None)) /\
     Mpu60503d.parse_line py_float [] = (None, None, None)) /\
    (MpuPitchRoll.parse_line py_float line =
       (if well_formed2 py_float line
        then (py_float (field line 0), py_float (field line 1))
        else (None, None)) /\
     ((exists p r,
          MpuPitchRoll.parse_line py_float line = (Some p, Some r)) \/
      MpuPitchRoll.parse_line py_float line = (None, None)) /\
     MpuPitchRoll.parse_line py_float [] = (None, None)).
Proof.
  intros py_float line; repeat split.
  - apply parse_line3_spec.
  - apply parse_line3_all_or_nothing.
  - apply parse_line2_spec.
  - apply parse_line2_all_or_nothing.
Qed.

(** ** The sample buffer *)

Section SampleBuffer.

Context {A : Type}.
Variable window : nat.

Lemma lastn_length (l : list A) : (length (lastn window l) <= window)%nat.
Proof. unfold lastn; rewrite length_skipn; lia. Qed.

Lemma lastn_short (l : list A) :
  (length l <= window)%nat -> lastn window l = l.
Proof.
  intros H; unfold lastn.
  replace (length l - window)%nat with 0%nat by lia; reflexivity.
Qed.

Lemma lastn_app (l ys : list A) :
  lastn window (lastn window l ++ ys) = lastn window (l ++ ys).
Proof.
  unfold lastn.
  rewrite length_app, length_skipn, length_app.
  set (k := (length l - window)%nat).
  replace (skipn k l ++ ys) with (skipn k (l ++ ys)).
  - rewrite skipn_skipn; f_equal; lia.
  - rewrite skipn_app.
    replace (k - length l)%nat with 0%nat by lia; reflexivity.
Qed.

(** One push: the new sample goes to the back, and the front one leaves when
    the buffer was full. *)
Lemma push_lastn (x : A) (buf : list A) :
  (length buf <= window)%nat ->
  MpuPitchRoll.push window x buf = lastn window (buf ++ [x]).
Proof.
  intros H; unfold MpuPitchRoll.push, lastn.
  rewrite length_app; simpl.
  destruct (Nat.ltb_spec window (length buf + 1)).
  - replace (length buf + 1 - window)%nat with 1%nat by lia.
    reflexivity.
  - replace (length buf + 1 - window)%nat with 0%nat by lia.
    reflexivity.
Qed.

Lemma push_length (x : A) (buf : list A) :
  (length buf <= window)%nat ->
  (length (MpuPitchRoll.push window x buf) <= window)%nat.
Proof. intros H; rewrite push_lastn by exact H; apply lastn_length. Qed.

Lemma push_all_lastn (xs buf : list A) :
  (length buf <= window)%nat ->
  push_all window xs buf = lastn window (buf ++ xs).
Proof.
  revert buf; induction xs as [|x xs IH]; intros buf H; simpl.
  - rewrite app_nil_r; symmetry; apply lastn_short; exact H.
  - unfold push_all in *; simpl.
    rewrite IH by (apply push_length; exact H).
    rewrite push_lastn by exact H.
    rewrite lastn_app, <- app_assoc; reflexivity.
Qed.

End SampleBuffer.

(** ** The mesh factory *)

Section Loops.

Context {B : Type}.

(** The list built by [for i in range(a, a + n)]. *)
Lemma nth_error_map_seq (f : nat -> B) (a n i : nat) :
  (i < n)%nat -> nth_error (map f (seq a n)) i = Some (f (a + i)%nat).
Proof.
  revert a i; induction n as [|n IH]; intros a i Hi; [ lia | ].
  destruct i as [|i]; simpl.
  - f_equal; f_equal; lia.
  - rewrite IH by lia. f_equal; f_equal; lia.
Qed.

Lemma nested_length (f : nat -> nat -> B) (a n m : nat) :
  length (nested f a n m) = (n * m)%nat.
Proof.
  unfold nested; revert a; induction n as [|n IH]; intros a; simpl.
  - reflexivity.
  - rewrite length_app, length_map, length_seq, IH; reflexivity.
Qed.

Lemma nested_nth_error (f : nat -> nat -> B) (a n m i j : nat) :
  (i < n)%nat -> (j < m)%nat ->
  nth_error (nested f a n m) (i * m + j) = Some (f (a + i)%nat j).
Proof.
  unfold nested; revert a i; induction n as [|n IH]; intros a i Hi Hj; [ lia | ].
  simpl. destruct i as [|i].
  - rewrite nth_error_app1 by (rewrite length_map, length_seq; simpl; lia).
    simpl. rewrite nth_error_map_seq by exact Hj.
    f_equal; f_equal; lia.
  - rewrite nth_error_app2 by (rewrite length_map, length_seq; simpl; lia).
    rewrite length_map, length_seq.
    replace (S i * m + j - m)%nat with (i * m + j)%nat by (simpl; lia).
    rewrite IH by lia. f_equal; f_equal; lia.
Qed.

Lemma nested_Forall (P : B -> Prop) (f : nat -> nat -> B) (a n m : nat) :
  (forall i j, (a <= i < a + n)%nat -> (j < m)%nat -> P (f i j)) ->
  Forall P (nested f a n m).
Proof.
  intros H; unfold nested; apply Forall_flat_map, Forall_forall.
  intros i Hi; apply in_seq in Hi.
  apply Forall_map, Forall_forall; intros j Hj; apply in_seq in Hj.
  apply H; lia.
Qed.

End Loops.

(** The quadrilateral of grid cell (i, j). *)
Lemma create_sphere_nested (center : vec3) (radius : R) (res : nat) :
  Mpu60503d.create_sphere center radius res =
  nested (fun i j =>
            [Mpu60503d.sphere_vert center radius res i j;
             Mpu60503d.sphere_vert center radius res (i + 1) j;
             Mpu60503d.sphere_vert center radius res (i + 1) (j + 1);
             Mpu60503d.sphere_vert center radius res i (j + 1)])
         0 (res - 1) (res - 1).
Proof. reflexivity. Qed.

(** Every grid point lies on the sphere of the given centre and radius. *)
Lemma sphere_vert_on_sphere (center : vec3) (radius : R) (res i j : nat) :
  let v := Mpu60503d.sphere_vert center radius res i j in
  (vx v - vx center) * (vx v - vx center) +
  (vy v - vy center) * (vy v - vy center) +
  (vz v - vz center) * (vz v - vz center) = radius * radius.
Proof.
  unfold Mpu60503d.sphere_vert; cbn [vx vy vz].
  set (phi := Mpu60503d.mgrid PI res i).
  set (theta := Mpu60503d.mgrid (2 * PI) res j).
  transitivity
    (radius * radius *
     (sin phi * sin phi * (cos theta * cos theta + sin theta * sin theta) +
      cos phi * cos phi)); [ ring | ].
  rewrite sq_sum, Rmult_1_r, (Rplus_comm (sin phi * sin phi)), sq_sum. ring.
Qed.

(** The grid runs from pole to pole: row 0 is the top of the sphere. *)
Lemma sphere_vert_north_pole (center : vec3) (radius : R) (res j : nat) :
  Mpu60503d.sphere_vert center radius res 0 j =
  V3 (vx center) (vy center) (vz center + radius).
Proof.
  unfold Mpu60503d.sphere_vert, Mpu60503d.mgrid; cbn [INR].
  rewrite Rmult_0_l, sin_0, cos_0. apply vec3_eq; cbn [vx vy vz]; ring.
Qed.

(** The grid point [verts[i, j]] is the point of the sphere at polar angle
    [i] of [res] from 0 to pi and azimuth [j] of [res] from 0 to 2 pi. *)
Lemma sphere_vert_spherical (center : vec3) (radius : R) (res i j : nat) :
  Mpu60503d.sphere_vert center radius res i j =
  spherical center radius (grid_angle PI res i) (grid_angle (2 * PI) res j).
Proof.
  unfold Mpu60503d.sphere_vert, Mpu60503d.mgrid, spherical, grid_angle.
  replace (INR i * (PI / INR (res - 1))) with (PI * INR i / INR (res - 1))
    by (unfold Rdiv; ring).
  replace (INR j * (2 * PI / INR (res - 1)))
    with (2 * PI * INR j / INR (res - 1)) by (unfold Rdiv; ring).
  reflexivity.
Qed.

Lemma grid_angle_ends (stop : R) (res : nat) :
  (2 <= res)%nat ->
  grid_angle stop res 0 = 0 /\ grid_angle stop res (res - 1) = stop.
Proof.
  intros H. assert (INR (res - 1) <> 0) by (apply not_0_INR; lia).
  unfold grid_angle; cbn [INR]; split; field; assumption.
Qed.

(** C8.  For a resolution of at least 2, [create_sphere] returns
    (resolution - 1) squared faces, one for each cell (i, j) of a
    resolution by resolution latitude/longitude grid, in row order.  The
    grid points are the points of the sphere of the given centre and radius
    at polar angles evenly spaced from 0 to pi and azimuths evenly spaced
    from 0 to 2 pi, both ends included; the face of cell (i, j) is the
    quadrilateral of the grid points (i, j), (i+1, j), (i+1, j+1) and
    (i, j+1), and every vertex of every face is such a grid point. *)
Theorem C8_sphere_faces :
  forall (center : vec3) (radius : R) (res : nat),
    (2 <= res)%nat ->
    let faces := Mpu60503d.create_sphere center radius res in
    let verts i j :=
      spherical center radius (grid_angle PI res i) (grid_angle (2 * PI) res j) in
    length faces = ((res - 1) * (res - 1))%nat /\
    (forall i j, (i < res - 1)%nat -> (j < res - 1)%nat ->
        nth_error faces (i * (res - 1) + j) =
        Some [verts i j; verts (i + 1)%nat j; verts (i + 1)%nat (j + 1)%nat;
              verts i (j + 1)%nat]) /\
    Forall (fun quad =>
              length quad = 4%nat /\
              Forall (fun v => exists i j,
                          (i < res)%nat /\ (j < res)%nat /\ v = verts i j)
                     quad)
           faces /\
    grid_angle PI res 0 = 0 /\ grid_angle PI res (res - 1) = PI /\
    grid_angle (2 * PI) res 0 = 0 /\
    grid_angle (2 * PI) res (res - 1) = 2 * PI.
Proof.
  intros center radius res Hres faces verts; subst faces verts.
  rewrite create_sphere_nested.
  split; [ apply nested_length | ].
  split.
  { intros i j Hi Hj. rewrite nested_nth_error by assumption.
    cbn [Nat.add]. rewrite !sphere_vert_spherical. reflexivity. }
  split.
  { apply nested_Forall; intros i j Hi Hj; split; [ reflexivity | ].
    rewrite !sphere_vert_spherical.
    repeat constructor;
      [ exists i, j | exists (i + 1)%nat, j
      | exists (i + 1)%nat, (j + 1)%nat | exists i, (j + 1)%nat ];
      repeat split; lia. }
  destruct (grid_angle_ends PI res Hres) as [A0 A1].
  destruct (grid_angle_ends (2 * PI) res Hres) as [B0 B1].
  repeat split; assumption.
Qed.

(** A sphere of resolution 4 has nine faces. *)
Lemma C8_sphere_faces_witness :
  (2 <= 4)%nat /\
  length (Mpu60503d.create_sphere (V3 0 0 0) 1 4) = 9%nat.
Proof.
  split; [ lia | ].
  exact (proj1 (C8_sphere_faces (V3 0 0 0) 1 4 ltac:(lia))).
Defined.

(** Every base point lies on the circle of the given radius around the base
    centre, in the base plane. *)
Lemma cone_base_on_circle (base_center : vec3) (radius : R) (res i : nat) :
  let b := Mpu60503d.cone_base base_center radius res i in
  (vx b - vx base_center) * (vx b - vx base_center) +
  (vy b - vy base_center) * (vy b - vy base_center) = radius * radius /\
  vz b = vz base_center.
Proof.
  unfold Mpu60503d.cone_base; cbn [vx vy vz]; split; [ | reflexivity ].
  set (theta := Mpu60503d.linspace_open res i).
  transitivity
    (radius * radius * (cos theta * cos theta + sin theta * sin theta));
    [ ring | rewrite sq_sum; ring ].
Qed.

(** Base point [i] is the point of the base circle at [i] [res]-ths of a
    turn. *)
Lemma cone_base_circular (base_center : vec3) (radius : R) (res i : nat) :
  Mpu60503d.cone_base base_center radius res i =
  circular base_center radius (fan_angle res i).
Proof.
  unfold Mpu60503d.cone_base, Mpu60503d.linspace_open, circular, fan_angle.
  replace (INR i * (2 * PI / INR res)) with (2 * PI * INR i / INR res)
    by (unfold Rdiv; ring).
  reflexivity.
Qed.

(** C9.  For a resolution of at least 1, [create_cone] returns resolution
    faces.  The base points are the points of the circle of the given radius
    about the base centre, in the base plane, at the angles of [res] equal
    steps of a full turn from 0; face i is the triangle of base point i, base
    point (i + 1) mod resolution and the apex, so the last face returns to
    base point 0, which is at angle 0; the apex of every face is the base
    centre raised by the height. *)
Theorem C9_cone_faces :
  forall (base_center : vec3) (height radius : R) (res : nat),
    (1 <= res)%nat ->
    let faces := Mpu60503d.create_cone base_center height radius res in
    let base i := circular base_center radius (fan_angle res i) in
    let apex := V3 (vx base_center) (vy base_center) (vz base_center + height) in
    length faces = res /\
    (forall i, (i < res)%nat ->
        nth_error faces i = Some [base i; base ((i + 1) mod res)%nat; apex]) /\
    nth_error faces (res - 1) = Some [base (res - 1)%nat; base 0%nat; apex] /\
    Forall (fun f => length f = 3%nat /\ nth_error f 2 = Some apex) faces /\
    base 0%nat = V3 (vx base_center + radius) (vy base_center) (vz base_center).
Proof.
  intros base_center height radius res Hres faces base apex.
  subst faces base apex; unfold Mpu60503d.create_cone, Mpu60503d.cone_tip.
  split; [ rewrite length_map, length_seq; reflexivity | ].
  split.
  { intros i Hi. rewrite nth_error_map_seq by exact Hi.
    cbn [Nat.add]. rewrite !cone_base_circular. reflexivity. }
  split.
  { rewrite nth_error_map_seq by lia. cbn [Nat.add].
    replace (res - 1 + 1)%nat with res by lia.
    rewrite Nat.Div0.mod_same, !cone_base_circular. reflexivity. }
  split.
  { apply Forall_map, Forall_forall; intros i _; split; reflexivity. }
  unfold circular, fan_angle; cbn [INR].
  replace (2 * PI * 0 / INR res) with 0 by (unfold Rdiv; ring).
  rewrite cos_0, sin_0. apply vec3_eq; cbn [vx vy vz]; ring.
Qed.

(** The cone of the specification: six faces around the apex (0, 0, 1). *)
Lemma C9_cone_faces_witness :
  (1 <= 6)%nat /\
  length (Mpu60503d.create_cone (V3 0 0 0) 1 1 6) = 6%nat /\
  Forall (fun f => length f = 3%nat /\ nth_error f 2 = Some (V3 0 0 (0 + 1)))
         (Mpu60503d.create_cone (V3 0 0 0) 1 1 6).
Proof.
  split; [ lia | ].
  pose proof (C9_cone_faces (V3 0 0 0) 1 1 6 ltac:(lia)) as H.
  split; [ exact (proj1 H) | exact (proj1 (proj2 (proj2 (proj2 H)))) ].
Defined.

(** ** The serial port *)

Lemma readline_eq (s : serial) :
  readline s = (upcoming s 0, MkSerial (skipn 1 (pending s)) (S (reads s))).
Proof. unfold readline, upcoming; destruct (pending s); reflexivity. Qed.

Lemma upcoming_skip (l : list str) (n : nat) (j k : nat) :
  upcoming (MkSerial (skipn k l) n) j = nth (k + j) l [].
Proof.
  unfold upcoming; simpl. revert l; induction k as [|k IH]; intros l; simpl.
  - reflexivity.
  - destruct l as [|x l]; simpl; [ destruct j; reflexivity | apply IH ].
Qed.

Lemma upcoming_next (s : serial) (j : nat) :
  upcoming (MkSerial (skipn 1 (pending s)) (S (reads s))) j = upcoming s (S j).
Proof. rewrite upcoming_skip; reflexivity. Qed.

Lemma skipn_1_skipn {X : Type} (k : nat) (l : list X) :
  skipn k (skipn 1 l) = skipn (S k) l.
Proof. rewrite skipn_skipn; f_equal; lia. Qed.

(** ** The 3-axis update *)

Section Update3.

Variable py_float : str -> option R.

Local Abbreviation parse_line := (Mpu60503d.parse_line py_float).
Local Abbreviation read_burst := (Mpu60503d.read_burst py_float).
Local Abbreviation update := (Mpu60503d.update py_float).

(** The burst stops at the first line that decodes: line [i] is the last one
    read. *)
Lemma read_burst3_break (k : nat) : forall (s : serial) (i : nat),
  (i < k)%nat ->
  (forall j, (j < i)%nat -> decodes3 py_float (upcoming s j) = false) ->
  decodes3 py_float (upcoming s i) = true ->
  read_burst k s =
  (MkSerial (skipn (S i) (pending s)) (reads s + S i),
   Some (parse_line (upcoming s i))).
Proof.
  induction k as [|k IH]; intros s i Hi Hbefore Hat; [ lia | ].
  simpl. rewrite readline_eq.
  unfold decodes3 in *.
  destruct i as [|i].
  - destruct (parse_line (upcoming s 0)) as [[yaw pitch] roll]; simpl in Hat.
    destruct yaw; [ | discriminate ].
    do 2 f_equal; lia.
  - pose proof (Hbefore 0%nat ltac:(lia)) as H0.
    destruct (parse_line (upcoming s 0)) as [[yaw pitch] roll]; simpl in H0.
    destruct yaw; [ discriminate | ].
    rewrite (IH _ i); cbn [pending reads].
    + rewrite skipn_1_skipn, upcoming_next. do 2 f_equal; lia.
    + lia.
    + intros j Hj. rewrite upcoming_next. apply Hbefore; lia.
    + rewrite upcoming_next. exact Hat.
Qed.

(** With no line that decodes, all [k] reads are made. *)
Lemma read_burst3_else (k : nat) : forall (s : serial),
  (forall j, (j < k)%nat -> decodes3 py_float (upcoming s j) = false) ->
  read_burst k s = (MkSerial (skipn k (pending s)) (reads s + k), None).
Proof.
  induction k as [|k IH]; intros s Hnone; simpl.
  - destruct s; simpl; do 2 f_equal; lia.
  - rewrite readline_eq.
    pose proof (Hnone 0%nat ltac:(lia)) as H0. unfold decodes3 in H0.
    destruct (parse_line (upcoming s 0)) as [[yaw pitch] roll]; simpl in H0.
    destruct yaw; [ discriminate | ].
    rewrite IH; cbn [pending reads].
    + rewrite skipn_1_skipn. do 2 f_equal; lia.
    + intros j Hj. rewrite upcoming_next. apply Hnone; lia.
Qed.

(** A line that decodes gives three floats. *)
Lemma decodes3_floats (line : str) :
  decodes3 py_float line = true ->
  exists y p r, parse_line line = (Some y, Some p, Some r).
Proof.
  unfold decodes3; intros H.
  destruct (parse_line3_all_or_nothing py_float line) as [Hs|Hn]; [ exact Hs | ].
  rewrite Hn in H; discriminate.
Qed.

(** What [update] does with a sample: the three texts are set, and
    [rotate_poly] raises on the body before any vertex is changed. *)
Lemma apply_sample_floats (w : Mpu60503d.world) (y p r : R) :
  Mpu60503d.apply_sample (Some y) (Some p) (Some r) w =
  (Mpu60503d.MkWorld (Mpu60503d.ser w) (Some y) (Some p) (Some r)
     (Mpu60503d.body_poly w) (Mpu60503d.head_poly w) (Mpu60503d.beak_poly w)
     (Mpu60503d.sink_calls w + 1 + 1 + 1),
   Raise AttributeError).
Proof. reflexivity. Qed.

(** The tick that decodes a sample. *)
Lemma update3_applying (w : Mpu60503d.world) (i : nat) (y p r : R) :
  (i < 3)%nat ->
  (forall j, (j < i)%nat ->
             decodes3 py_float (upcoming (Mpu60503d.ser w) j) = false) ->
  parse_line (upcoming (Mpu60503d.ser w) i) = (Some y, Some p, Some r) ->
  update w =
  (Mpu60503d.MkWorld
     (MkSerial (skipn (S i) (pending (Mpu60503d.ser w)))
               (reads (Mpu60503d.ser w) + S i))
     (Some y) (Some p) (Some r)
     (Mpu60503d.body_poly w) (Mpu60503d.head_poly w) (Mpu60503d.beak_poly w)
     (Mpu60503d.sink_calls w + 3),
   Raise AttributeError).
Proof.
  intros Hi Hbefore Hat. unfold Mpu60503d.update.
  rewrite (read_burst3_break 3 _ i Hi Hbefore)
    by (unfold decodes3; rewrite Hat; reflexivity).
  rewrite Hat, apply_sample_floats.
  cbn [Mpu60503d.ser Mpu60503d.body_poly Mpu60503d.head_poly
       Mpu60503d.beak_poly Mpu60503d.sink_calls].
  replace (Mpu60503d.sink_calls w + 1 + 1 + 1)%nat
    with (Mpu60503d.sink_calls w + 3)%nat by lia.
  reflexivity.
Qed.

(** The tick that finds no sample. *)
Lemma update3_skipping (w : Mpu60503d.world) :
  (forall j, (j < 3)%nat ->
             decodes3 py_float (upcoming (Mpu60503d.ser w) j) = false) ->
  update w =
  (Mpu60503d.MkWorld
     (MkSerial (skipn 3 (pending (Mpu60503d.ser w)))
               (reads (Mpu60503d.ser w) + 3))
     (Mpu60503d.yaw_text w) (Mpu60503d.pitch_text w) (Mpu60503d.roll_text w)
     (Mpu60503d.body_poly w) (Mpu60503d.head_poly w) (Mpu60503d.beak_poly w)
     (Mpu60503d.sink_calls w),
   Ok tt).
Proof.
  intros Hnone. unfold Mpu60503d.update.
  rewrite (read_burst3_else 3 _ Hnone). reflexivity.
Qed.

End Update3.

(** ** The 2-axis update *)

Section Buffers.

Context {A B : Type}.
Variable window : nat.

Lemma pop0_app (l : list A) (x : A) : pop0 (l ++ [x]) = Ok (tl (l ++ [x])).
Proof. destruct l; reflexivity. Qed.

Lemma getlast_app (l : list A) (x : A) : getlast (l ++ [x]) = Ok x.
Proof. unfold getlast; rewrite rev_app_distr; reflexivity. Qed.

Lemma latest_app (l : list A) (x : A) : MpuPitchRoll.latest (l ++ [x]) = Some x.
Proof.
  unfold MpuPitchRoll.latest. rewrite getlast_app.
  destruct l; reflexivity.
Qed.

Lemma latest_getlast (l : list A) (x : A) :
  MpuPitchRoll.latest l = Some x -> getlast l = Ok x.
Proof.
  destruct l as [|a l]; [ discriminate | ].
  destruct (@exists_last _ (a :: l)) as [l' [y E]]; [ discriminate | ].
  rewrite E, latest_app. intros H; inversion H; subst. apply getlast_app.
Qed.

Lemma push_same_length (x : A) (y : B) (pb : list A) (rb : list B) :
  length pb = length rb ->
  length (MpuPitchRoll.push window x pb) = length (MpuPitchRoll.push window y rb).
Proof.
  intros H; unfold MpuPitchRoll.push.
  rewrite !length_app, H; simpl.
  destruct (window <? length rb + 1)%nat.
  - destruct pb, rb; simpl in *; try discriminate; try reflexivity.
    rewrite !length_app; simpl; lia.
  - rewrite !length_app; simpl; lia.
Qed.

Lemma push_all_same_length (xs : list (A * B)) :
  forall (pb : list A) (rb : list B),
    length pb = length rb ->
    length (push_all window (map fst xs) pb) =
    length (push_all window (map snd xs) rb).
Proof.
  unfold push_all; induction xs as [|x xs IH]; intros pb rb H; simpl.
  - exact H.
  - apply IH, push_same_length, H.
Qed.

Lemma push_Forall (P : A -> Prop) (x : A) (buf : list A) :
  P x -> Forall P buf -> Forall P (MpuPitchRoll.push window x buf).
Proof.
  intros Hx Hbuf; unfold MpuPitchRoll.push.
  assert (Hall : Forall P (buf ++ [x])) by (apply Forall_app; auto).
  destruct (window <? length (buf ++ [x]))%nat; [ | exact Hall ].
  destruct (buf ++ [x]); [ constructor | inversion Hall; assumption ].
Qed.

Lemma push_all_Forall (P : A -> Prop) (xs : list A) :
  forall buf : list A,
    Forall P xs -> Forall P buf -> Forall P (push_all window xs buf).
Proof.
  unfold push_all; induction xs as [|x xs IH]; intros buf Hxs Hbuf; simpl.
  - exact Hbuf.
  - inversion Hxs; subst. apply IH; [ assumption | ].
    apply push_Forall; assumption.
Qed.

Lemma push_map (f : A -> B) (x : A) (buf : list A) :
  MpuPitchRoll.push window (f x) (map f buf) =
  map f (MpuPitchRoll.push window x buf).
Proof.
  unfold MpuPitchRoll.push.
  change [f x] with (map f [x]). rewrite <- map_app, length_map.
  destruct (window <? length (buf ++ [x]))%nat; [ | reflexivity ].
  destruct (buf ++ [x]); reflexivity.
Qed.

Lemma push_all_map (f : A -> B) (xs buf : list A) :
  push_all window (map f xs) (map f buf) = map f (push_all window xs buf).
Proof.
  unfold push_all; revert buf; induction xs as [|x xs IH]; intros buf; simpl.
  - reflexivity.
  - rewrite push_map. apply IH.
Qed.

Lemma push_all_app (xs ys buf : list A) :
  push_all window (xs ++ ys) buf = push_all window ys (push_all window xs buf).
Proof. unfold push_all; apply fold_left_app. Qed.

End Buffers.

Lemma taken_S (s : serial) (k : nat) :
  taken s (S k) =
  upcoming s 0 :: taken (MkSerial (skipn 1 (pending s)) (S (reads s))) k.
Proof.
  unfold taken; cbn [seq map]. f_equal.
  rewrite <- seq_shift, map_map. apply map_ext.
  intros j; rewrite upcoming_next; reflexivity.
Qed.

Section Update2.

Variable py_float : str -> option R.

Local Abbreviation parse_line := (MpuPitchRoll.parse_line py_float).
Local Abbreviation read_burst := (MpuPitchRoll.read_burst py_float).
Local Abbreviation update := (MpuPitchRoll.update py_float).

(** A sample taken from a line is a pair of floats, both from that line. *)
Lemma sample2_floats (raw : str) (p r : pyval) :
  sample2 py_float raw = Some (p, r) ->
  raw <> [] /\ parse_line raw = (p, r) /\ p <> None /\ r <> None.
Proof.
  unfold sample2. destruct raw as [|c raw]; [ discriminate | ].
  destruct (parse_line2_all_or_nothing py_float (c :: raw))
    as [(p' & r' & H)|H]; rewrite H; [ | discriminate ].
  intros E; inversion E; subst. repeat split; discriminate.
Qed.

Lemma decoded2_floats (raws : list str) :
  Forall (fun v => v <> None) (map fst (decoded2 py_float raws)) /\
  Forall (fun v => v <> None) (map snd (decoded2 py_float raws)).
Proof.
  unfold decoded2; induction raws as [|raw raws [IH1 IH2]]; simpl.
  - split; constructor.
  - destruct (sample2 py_float raw) as [[p r]|] eqn:E; simpl; [ | auto ].
    apply sample2_floats in E as (_ & _ & Hp & Hr).
    split; constructor; assumption.
Qed.

(** The burst of the 2-axis program: every one of the [k] reads is made, and
    every sample found is pushed, on both buffers alike. *)
Lemma read_burst2_ok (window k : nat) :
  forall (s : serial) (pb rb : list pyval),
    length pb = length rb ->
    read_burst window k s pb rb =
    Ok (MkSerial (skipn k (pending s)) (reads s + k),
        push_all window (map fst (decoded2 py_float (taken s k))) pb,
        push_all window (map snd (decoded2 py_float (taken s k))) rb).
Proof.
  induction k as [|k IH]; intros s pb rb Hlen.
  - simpl. destruct s; simpl. rewrite Nat.add_0_r; reflexivity.
  - cbn [MpuPitchRoll.read_burst]. rewrite readline_eq, taken_S.
    set (s' := MkSerial (skipn 1 (pending s)) (S (reads s))).
    assert (Hs' : forall pb' rb',
               length pb' = length rb' ->
               read_burst window k s' pb' rb' =
               Ok (MkSerial (skipn (S k) (pending s)) (reads s + S k),
                   push_all window (map fst (decoded2 py_float (taken s' k))) pb',
                   push_all window (map snd (decoded2 py_float (taken s' k))) rb')).
    { intros pb' rb' H. rewrite IH by exact H. subst s'; cbn [pending reads].
      rewrite skipn_1_skipn.
      replace (S (reads s) + k)%nat with (reads s + S k)%nat by lia.
      reflexivity. }
    unfold decoded2 at 1 2; cbn [flat_map]; fold (decoded2 py_float (taken s' k)).
    unfold sample2.
    destruct (upcoming s 0) as [|c raw]; [ apply Hs'; exact Hlen | ].
    destruct (parse_line (c :: raw)) as [pitch roll].
    destruct pitch as [x|]; [ | apply Hs'; exact Hlen ].
    cbn [app map fst snd]. unfold push_all at 1 2; cbn [fold_left].
    fold (push_all window (map fst (decoded2 py_float (taken s' k)))
                   (MpuPitchRoll.push window (Some x) pb)).
    fold (push_all window (map snd (decoded2 py_float (taken s' k)))
                   (MpuPitchRoll.push window roll rb)).
    unfold MpuPitchRoll.push; cbv zeta; unfold pyval in *.
    replace (length (rb ++ [roll])) with (length (pb ++ [Some x]))
      by (rewrite !length_app, Hlen; reflexivity).
    destruct (window <? length (pb ++ [Some x]))%nat.
    + rewrite !pop0_app; cbn [bind]. apply Hs'.
      destruct pb, rb; simpl in *; try discriminate; try reflexivity.
      rewrite !length_app; simpl; lia.
    + apply Hs'. rewrite !length_app, Hlen; reflexivity.
Qed.

End Update2.

Lemma latest_float (buf : list pyval) :
  buf <> [] -> Forall (fun v => v <> None) buf ->
  exists x, MpuPitchRoll.latest buf = Some (Some x).
Proof.
  intros Hne Hall.
  destruct (exists_last Hne) as [l' [y E]]; subst buf.
  apply Forall_app in Hall as [_ Hy]. inversion Hy; subst.
  destruct y as [x|]; [ | congruence ].
  exists x. apply latest_app.
Qed.

(** The drawing loop sets every line to the rotated box. *)
Lemma draw_edges_wireframe (p r : R) (ls : list MpuPitchRoll.line3d) (calls : nat) :
  length ls = length MpuPitchRoll.edges ->
  MpuPitchRoll.draw_edges
    (rows_matmul MpuPitchRoll.cube_definition
                 (transpose (MpuPitchRoll.rotation_matrix p r)))
    MpuPitchRoll.edges 0 ls calls =
  Ok (wireframe p r, (calls + 24)%nat).
Proof.
  intros H. unfold wireframe.
  generalize (MpuPitchRoll.rotation_matrix p r); intros m.
  do 13 (destruct ls as [|? ls]; try discriminate H).
  unfold rows_matmul, MpuPitchRoll.cube_definition, MpuPitchRoll.edges.
  cbn [map MpuPitchRoll.draw_edges getitem nth_error bind setitem nth].
  rewrite !vecmat_transpose.
  replace (calls + 24)%nat
    with (calls + 2 + 2 + 2 + 2 + 2 + 2 + 2 + 2 + 2 + 2 + 2 + 2)%nat by lia.
  reflexivity.
Qed.

Section Tick2.

Variable py_float : str -> option R.

Local Abbreviation update := (MpuPitchRoll.update py_float).

(** One tick of the 2-axis program from a steady state: five reads; every
    sample found is pushed; then either the buffer is still empty and nothing
    is drawn, or the box is drawn for the latest buffered sample. *)
Lemma update2_step (w : MpuPitchRoll.world) :
  steady w ->
  let samples := decoded2 py_float (taken (MpuPitchRoll.ser w) 5) in
  let pb := push_all MpuPitchRoll.WINDOW (map fst samples) (MpuPitchRoll.pitch_buf w) in
  let rb := push_all MpuPitchRoll.WINDOW (map snd samples) (MpuPitchRoll.roll_buf w) in
  let s := MkSerial (skipn 5 (pending (MpuPitchRoll.ser w)))
                    (reads (MpuPitchRoll.ser w) + 5) in
  (pb = [] /\
   update w =
   Ok (MpuPitchRoll.MkWorld s pb rb (MpuPitchRoll.lines w)
                            (MpuPitchRoll.sink_calls w))) \/
  (exists p r,
      MpuPitchRoll.latest pb = Some (Some p) /\
      MpuPitchRoll.latest rb = Some (Some r) /\
      update w =
      Ok (MpuPitchRoll.MkWorld s pb rb (wireframe p r)
                               (MpuPitchRoll.sink_calls w + 24))).
Proof.
  intros (Hlen & Hp & Hr & Hlines & _) samples pb rb s.
  unfold MpuPitchRoll.update.
  rewrite read_burst2_ok by exact Hlen.
  fold samples; fold pb; fold rb; fold s. cbn [bind].
  assert (Hlen' : length pb = length rb)
    by (apply push_all_same_length; exact Hlen).
  assert (Hp' : Forall (fun v => v <> None) pb)
    by (apply push_all_Forall; [ apply decoded2_floats | exact Hp ]).
  assert (Hr' : Forall (fun v => v <> None) rb)
    by (apply push_all_Forall; [ apply decoded2_floats | exact Hr ]).
  clearbody pb rb s.
  destruct pb as [|v pb0] eqn:Epb; [ left; split; reflexivity | right ].
  rewrite <- Epb in *.
  assert (Hne : pb <> []) by (rewrite Epb; discriminate).
  assert (Hne' : rb <> []) by (intros ->; rewrite Epb in Hlen'; discriminate).
  destruct (latest_float pb Hne Hp') as [p Lp].
  destruct (latest_float rb Hne' Hr') as [r Lr].
  exists p, r; repeat split; try assumption.
  rewrite (latest_getlast _ _ Lp), (latest_getlast _ _ Lr). cbn [bind as_float].
  rewrite draw_edges_wireframe by exact Hlines. reflexivity.
Qed.

Lemma startup2_steady (feed : list str) : steady (MpuPitchRoll.startup feed).
Proof.
  repeat split; simpl; try constructor.
  intros p r H; discriminate H.
Qed.

(** Steady states are kept by [update], which never raises from one. *)
Lemma update2_steady (w : MpuPitchRoll.world) :
  steady w -> exists w', update w = Ok w' /\ steady w'.
Proof.
  intros Hw. pose proof Hw as (Hlen & Hp & Hr & Hlines & Hshow).
  destruct (update2_step w Hw) as [[E U]|(p & r & Lp & Lr & U)];
    rewrite U; eexists; (split; [ reflexivity | ]).
  - repeat split;
      cbn [MpuPitchRoll.pitch_buf MpuPitchRoll.roll_buf MpuPitchRoll.lines].
    + apply push_all_same_length; exact Hlen.
    + apply push_all_Forall; [ apply decoded2_floats | exact Hp ].
    + apply push_all_Forall; [ apply decoded2_floats | exact Hr ].
    + exact Hlines.
    + intros p r Lp. rewrite E in Lp. discriminate Lp.
  - repeat split;
      cbn [MpuPitchRoll.pitch_buf MpuPitchRoll.roll_buf MpuPitchRoll.lines].
    + apply push_all_same_length; exact Hlen.
    + apply push_all_Forall; [ apply decoded2_floats | exact Hp ].
    + apply push_all_Forall; [ apply decoded2_floats | exact Hr ].
    + intros p' r' Lp' Lr'. congruence.
Qed.

End Tick2.

(** The three texts, read with [decimal_float]. *)
Lemma parse_noisy_0 :
  Mpu60503d.parse_line decimal_float (line_of "garbage") = (None, None, None).
Proof. reflexivity. Qed.

Lemma parse_noisy_1 :
  Mpu60503d.parse_line decimal_float (line_of "1,2") = (None, None, None).
Proof. reflexivity. Qed.

Lemma parse_noisy_2 :
  Mpu60503d.parse_line decimal_float (line_of "5,10,15") =
  (Some 5, Some 10, Some 15).
Proof. cbv -[IZR]. reflexivity. Qed.

Lemma parse_quarter_turn :
  Mpu60503d.parse_line decimal_float (line_of "90,0,0") =
  (Some 90, Some 0, Some 0).
Proof. cbv -[IZR]. reflexivity. Qed.

Lemma sample2_one_two :
  sample2 decimal_float (line_of "1,2") = Some (Some 1, Some 2).
Proof. cbv -[IZR]. reflexivity. Qed.

Lemma Ok_inj {X : Type} (a b : X) : Ok a = Ok b -> a = b.
Proof. intros H; inversion H; reflexivity. Qed.

Section Tick2Summary.

Variable py_float : str -> option R.

(** One tick of the 2-axis program, in full. *)
Lemma update2_spec (w : MpuPitchRoll.world) :
  steady w ->
  exists w',
    MpuPitchRoll.update py_float w = Ok w' /\
    steady w' /\
    MpuPitchRoll.ser w' =
      MkSerial (skipn 5 (pending (MpuPitchRoll.ser w)))
               (reads (MpuPitchRoll.ser w) + 5) /\
    MpuPitchRoll.pitch_buf w' =
      push_all MpuPitchRoll.WINDOW
               (map fst (decoded2 py_float (taken (MpuPitchRoll.ser w) 5)))
               (MpuPitchRoll.pitch_buf w) /\
    MpuPitchRoll.roll_buf w' =
      push_all MpuPitchRoll.WINDOW
               (map snd (decoded2 py_float (taken (MpuPitchRoll.ser w) 5)))
               (MpuPitchRoll.roll_buf w) /\
    (MpuPitchRoll.pitch_buf w' = [] ->
       MpuPitchRoll.lines w' = MpuPitchRoll.lines w /\
       MpuPitchRoll.sink_calls w' = MpuPitchRoll.sink_calls w) /\
    (MpuPitchRoll.pitch_buf w' <> [] ->
       MpuPitchRoll.sink_calls w' = (MpuPitchRoll.sink_calls w + 24)%nat /\
       exists p r,
         MpuPitchRoll.latest (MpuPitchRoll.pitch_buf w') = Some (Some p) /\
         MpuPitchRoll.latest (MpuPitchRoll.roll_buf w') = Some (Some r) /\
         MpuPitchRoll.lines w' = wireframe p r).
Proof.
  intros Hw.
  assert (Hkept : forall x, MpuPitchRoll.update py_float w = Ok x -> steady x).
  { intros x U. destruct (update2_steady py_float w Hw) as (w' & U' & Hw').
    rewrite U in U'. apply Ok_inj in U'. subst w'. exact Hw'. }
  destruct (update2_step py_float w Hw) as [[E U]|(p & r & Lp & Lr & U)];
    (eexists; split; [ exact U | ]); (split; [ exact (Hkept _ U) | ]);
    cbn [MpuPitchRoll.ser MpuPitchRoll.pitch_buf MpuPitchRoll.roll_buf
         MpuPitchRoll.lines MpuPitchRoll.sink_calls];
    (split; [ reflexivity | split; [ reflexivity | split; [ reflexivity | ] ] ]).
  - split; [ intros _; split; reflexivity | intros Hne; contradiction ].
  - split; [ intros E; rewrite E in Lp; discriminate Lp | ].
    intros _; split; [ reflexivity | exists p, r; auto ].
Qed.

End Tick2Summary.

(** ** The burst of reads *)

(** C2, as the programs have it.  The 3-axis [update] stops reading at the
    first line that decodes: when line [i] of the coming three is the first to
    decode, exactly [i + 1] reads have been made when the tick ends, and three
    when none decodes.  The 2-axis [update] has no early exit: it makes all five reads
    in every tick and pushes every sample it finds. *)
Theorem C2_burst_reads :
  forall py_float : str -> option R,
    (forall (w : Mpu60503d.world) (i : nat),
        (i < 3)%nat ->
        (forall j, (j < i)%nat ->
                   decodes3 py_float (upcoming (Mpu60503d.ser w) j) = false) ->
        decodes3 py_float (upcoming (Mpu60503d.ser w) i) = true ->
        let w' := fst (Mpu60503d.update py_float w) in
        reads (Mpu60503d.ser w') = (reads (Mpu60503d.ser w) + (i + 1))%nat /\
        pending (Mpu60503d.ser w') =
          skipn (i + 1) (pending (Mpu60503d.ser w))) /\
    (forall w : Mpu60503d.world,
        (forall j, (j < 3)%nat ->
                   decodes3 py_float (upcoming (Mpu60503d.ser w) j) = false) ->
        let w' := fst (Mpu60503d.update py_float w) in
        reads (Mpu60503d.ser w') = (reads (Mpu60503d.ser w) + 3)%nat /\
        pending (Mpu60503d.ser w') = skipn 3 (pending (Mpu60503d.ser w))) /\
    (forall w : MpuPitchRoll.world,
        steady w ->
        exists w',
          MpuPitchRoll.update py_float w = Ok w' /\
          reads (MpuPitchRoll.ser w') = (reads (MpuPitchRoll.ser w) + 5)%nat /\
          pending (MpuPitchRoll.ser w') = skipn 5 (pending (MpuPitchRoll.ser w)) /\
          MpuPitchRoll.pitch_buf w' =
            push_all MpuPitchRoll.WINDOW
              (map fst (decoded2 py_float (taken (MpuPitchRoll.ser w) 5)))
              (MpuPitchRoll.pitch_buf w) /\
          MpuPitchRoll.roll_buf w' =
            push_all MpuPitchRoll.WINDOW
              (map snd (decoded2 py_float (taken (MpuPitchRoll.ser w) 5)))
              (MpuPitchRoll.roll_buf w)).
Proof.
  intros py_float; split; [ | split ].
  - intros w i Hi Hbefore Hat w'. subst w'.
    destruct (decodes3_floats py_float _ Hat) as (y & p & r & E).
    rewrite (update3_applying py_float w i y p r Hi Hbefore E).
    cbn [fst Mpu60503d.ser reads pending].
    replace (i + 1)%nat with (S i) by lia. split; reflexivity.
  - intros w Hnone w'. subst w'.
    rewrite (update3_skipping py_float w Hnone).
    cbn [fst Mpu60503d.ser reads pending]. split; reflexivity.
  - intros w Hw.
    destruct (update2_spec py_float w Hw) as (w' & U & _ & Hs & Hp & Hr & _).
    exists w'; rewrite Hs; cbn [reads pending]; auto.
Qed.

(** The 3-axis tick on two malformed lines and a sample makes three reads;
    the 2-axis tick on a backlog of five samples makes five reads. *)
Lemma C2_burst_reads_witness :
  (reads (Mpu60503d.ser
            (fst (Mpu60503d.update decimal_float (Mpu60503d.startup noisy_feed))))
   = 3%nat /\
   pending (Mpu60503d.ser
              (fst (Mpu60503d.update decimal_float (Mpu60503d.startup noisy_feed))))
   = []) /\
  (exists w',
      MpuPitchRoll.update decimal_float (MpuPitchRoll.startup backlog) = Ok w' /\
      reads (MpuPitchRoll.ser w') = 5%nat).
Proof.
  destruct (C2_burst_reads decimal_float) as (H3 & _ & H2).
  split.
  - apply (H3 (Mpu60503d.startup noisy_feed) 2%nat).
    + lia.
    + intros j Hj.
      destruct j as [|[|j]]; [ reflexivity | reflexivity | lia ].
    + reflexivity.
  - destruct (H2 (MpuPitchRoll.startup backlog)) as (w' & U & Hr & _).
    + apply startup2_steady.
    + exists w'; auto.
Defined.

(** The claim as stated fails for the 2-axis program: with a backlog of five
    samples the first read already decodes, and the tick still makes all five
    reads. *)
Lemma C2_counterexample :
  sample2 decimal_float (upcoming (MpuPitchRoll.ser (MpuPitchRoll.startup backlog)) 0)
    = Some (Some 1, Some 2) /\
  exists w',
    MpuPitchRoll.update decimal_float (MpuPitchRoll.startup backlog) = Ok w' /\
    reads (MpuPitchRoll.ser w') = 5%nat /\
    reads (MpuPitchRoll.ser w') <> 1%nat.
Proof.
  split; [ exact sample2_one_two | ].
  destruct (update2_spec decimal_float _ (startup2_steady backlog))
    as (w' & U & _ & Hs & _).
  exists w'; rewrite Hs; cbn; repeat split; [ exact U | discriminate ].
Qed.

(** ** A tick without a sample *)

Lemma decoded2_silence (py_float : str -> option R) (l : list str) (n k : nat) :
  (length l <= k)%nat ->
  decoded2 py_float (taken (MkSerial (skipn k l) n) 5) = [].
Proof.
  intros H. rewrite skipn_all2 by exact H. reflexivity.
Qed.

(** C3, as the programs have it.  When none of the reads of a tick gives a
    sample, [update] returns without raising.  In the 3-axis program nothing
    is redrawn: texts and meshes are those of the tick before, and no call is
    made on a drawing object.  In the 2-axis program the buffers and the data
    of every line are those of the tick before; no call is made on a drawing
    object while the buffer is still empty, and once it holds a sample the
    box is drawn again for the latest buffered sample, which sets every
    line to the data it already had. *)
Theorem C3_tick_without_sample :
  forall py_float : str -> option R,
    (forall w : Mpu60503d.world,
        (forall j, (j < 3)%nat ->
                   decodes3 py_float (upcoming (Mpu60503d.ser w) j) = false) ->
        exists w',
          Mpu60503d.update py_float w = (w', Ok tt) /\
          Mpu60503d.body_poly w' = Mpu60503d.body_poly w /\
          Mpu60503d.head_poly w' = Mpu60503d.head_poly w /\
          Mpu60503d.beak_poly w' = Mpu60503d.beak_poly w /\
          Mpu60503d.yaw_text w' = Mpu60503d.yaw_text w /\
          Mpu60503d.pitch_text w' = Mpu60503d.pitch_text w /\
          Mpu60503d.roll_text w' = Mpu60503d.roll_text w /\
          Mpu60503d.sink_calls w' = Mpu60503d.sink_calls w) /\
    (forall w : MpuPitchRoll.world,
        steady w ->
        decoded2 py_float (taken (MpuPitchRoll.ser w) 5) = [] ->
        exists w',
          MpuPitchRoll.update py_float w = Ok w' /\
          MpuPitchRoll.pitch_buf w' = MpuPitchRoll.pitch_buf w /\
          MpuPitchRoll.roll_buf w' = MpuPitchRoll.roll_buf w /\
          MpuPitchRoll.lines w' = MpuPitchRoll.lines w /\
          (MpuPitchRoll.pitch_buf w = [] ->
             MpuPitchRoll.sink_calls w' = MpuPitchRoll.sink_calls w) /\
          (MpuPitchRoll.pitch_buf w <> [] ->
             MpuPitchRoll.sink_calls w' = (MpuPitchRoll.sink_calls w + 24)%nat)).
Proof.
  intros py_float; split.
  - intros w Hnone.
    eexists; split; [ apply (update3_skipping py_float w Hnone) | ].
    repeat split.
  - intros w Hw Hnone.
    destruct (update2_spec py_float w Hw)
      as (w' & U & _ & _ & Hp & Hr & Hempty & Hdrawn).
    rewrite Hnone in Hp, Hr. cbn in Hp, Hr.
    exists w'; split; [ exact U | ].
    split; [ exact Hp | split; [ exact Hr | ] ].
    rewrite Hp in Hempty, Hdrawn. rewrite Hr in Hdrawn.
    destruct (MpuPitchRoll.pitch_buf w) as [|v l] eqn:E.
    + destruct (Hempty eq_refl) as [Hl Hc].
      split; [ exact Hl | split; [ intros _; exact Hc | intros F; contradiction ] ].
    + destruct Hdrawn as (Hc & p & r & Lp & Lr & Hl); [ discriminate | ].
      split; [ | split; [ discriminate | intros _; exact Hc ] ].
      rewrite Hl. symmetry.
      destruct Hw as (_ & _ & _ & _ & Hshow). apply Hshow.
      * rewrite E; exact Lp.
      * exact Lr.
Qed.

(** Three malformed lines in the 3-axis program, and a silent port in the
    2-axis program before any sample arrived. *)
Lemma C3_tick_without_sample_witness :
  (exists w',
      Mpu60503d.update decimal_float
        (Mpu60503d.startup malformed_feed) = (w', Ok tt) /\
      Mpu60503d.beak_poly w' = Mpu60503d.beak_faces /\
      Mpu60503d.sink_calls w' = 0%nat) /\
  (exists w',
      MpuPitchRoll.update decimal_float (MpuPitchRoll.startup []) = Ok w' /\
      MpuPitchRoll.pitch_buf w' = [] /\
      MpuPitchRoll.sink_calls w' = 0%nat).
Proof.
  destruct (C3_tick_without_sample decimal_float) as (H3 & H2).
  split.
  - destruct (H3 (Mpu60503d.startup malformed_feed))
      as (w' & U & _ & _ & Hb & _ & _ & _ & Hc).
    + intros j Hj.
      destruct j as [|[|[|j]]]; [ reflexivity | reflexivity | reflexivity | lia ].
    + exists w'; auto.
  - destruct (H2 (MpuPitchRoll.startup []))
      as (w' & U & Hp & _ & _ & Hc & _).
    + apply startup2_steady.
    + reflexivity.
    + exists w'; split; [ exact U | split; [ exact Hp | exact (Hc eq_refl) ] ].
Defined.

(** The claim as stated fails for the 2-axis program: after a tick that
    buffered the sample 1,2 the port falls silent; the next tick finds no
    sample in its five reads and still makes the 24 drawing calls. *)
Lemma C3_counterexample :
  exists w1 w2,
    MpuPitchRoll.update decimal_float (MpuPitchRoll.startup one_sample) = Ok w1 /\
    MpuPitchRoll.sink_calls w1 = 24%nat /\
    decoded2 decimal_float (taken (MpuPitchRoll.ser w1) 5) = [] /\
    MpuPitchRoll.update decimal_float w1 = Ok w2 /\
    MpuPitchRoll.sink_calls w2 = 48%nat /\
    MpuPitchRoll.sink_calls w2 <> MpuPitchRoll.sink_calls w1.
Proof.
  destruct (update2_spec decimal_float _ (startup2_steady one_sample))
    as (w1 & U1 & Hw1 & Hs1 & Hp1 & _ & _ & Hd1).
  assert (E1 : MpuPitchRoll.pitch_buf w1 = [Some 1]).
  { rewrite Hp1. cbv -[IZR]. reflexivity. }
  destruct Hd1 as (Hc1 & _); [ rewrite E1; discriminate | ].
  assert (Hq : decoded2 decimal_float (taken (MpuPitchRoll.ser w1) 5) = []).
  { rewrite Hs1. apply decoded2_silence. simpl; lia. }
  destruct (update2_spec decimal_float _ Hw1)
    as (w2 & U2 & _ & _ & Hp2 & _ & _ & Hd2).
  rewrite Hq, E1 in Hp2. cbn in Hp2.
  destruct Hd2 as (Hc2 & _); [ rewrite Hp2; discriminate | ].
  exists w1, w2. rewrite Hc2, Hc1. cbn.
  repeat split; [ exact U1 | exact Hq | exact U2 | discriminate ].
Qed.

(** ** The two buffers of the 2-axis program *)

Lemma taken_app (s : serial) (a b : nat) :
  taken s (a + b) =
  taken s a ++ taken (MkSerial (skipn a (pending s)) (reads s + a)) b.
Proof.
  revert s; induction a as [|a IH]; intros s.
  - destruct s; simpl. rewrite Nat.add_0_r. reflexivity.
  - cbn [Nat.add]. rewrite !taken_S, IH. cbn [pending reads app].
    rewrite skipn_1_skipn.
    replace (S (reads s) + a)%nat with (reads s + S a)%nat by lia.
    reflexivity.
Qed.

Lemma decoded2_app (py_float : str -> option R) (l1 l2 : list str) :
  decoded2 py_float (l1 ++ l2) = decoded2 py_float l1 ++ decoded2 py_float l2.
Proof. unfold decoded2; apply flat_map_app. Qed.

(** Every sample comes from one line that was read. *)
Lemma decoded2_origin (py_float : str -> option R) (raws : list str) :
  Forall (fun x => exists line,
              In line raws /\ line <> [] /\
              MpuPitchRoll.parse_line py_float line = x /\
              fst x <> None /\ snd x <> None)
         (decoded2 py_float raws).
Proof.
  apply Forall_forall; intros [p r] Hin.
  unfold decoded2 in Hin. apply in_flat_map in Hin as (line & Hline & Hx).
  destruct (sample2 py_float line) as [[p' r']|] eqn:E; [ | contradiction ].
  destruct Hx as [Hx|[]]. inversion Hx; subst p' r'.
  apply sample2_floats in E as (Hne & Hparse & Hp & Hr).
  exists line; auto.
Qed.

Lemma Forall_lastn {X : Type} (P : X -> Prop) (n : nat) (l : list X) :
  Forall P l -> Forall P (lastn n l).
Proof.
  intros H; unfold lastn.
  rewrite <- (firstn_skipn (length l - n) l) in H.
  apply Forall_app in H; tauto.
Qed.

Lemma Forall2_fst_snd {X Y : Type} (P : X -> Y -> Prop) (l : list (X * Y)) :
  Forall (fun x => P (fst x) (snd x)) l -> Forall2 P (map fst l) (map snd l).
Proof. induction 1; simpl; constructor; assumption. Qed.

Section Run2.

Variable py_float : str -> option R.

(** [n] ticks of the 2-axis program from a steady state. *)
Lemma run2_spec (n : nat) : forall w : MpuPitchRoll.world,
  steady w ->
  exists w',
    MpuPitchRoll.run py_float n w = Ok w' /\
    steady w' /\
    MpuPitchRoll.ser w' =
      MkSerial (skipn (5 * n) (pending (MpuPitchRoll.ser w)))
               (reads (MpuPitchRoll.ser w) + 5 * n) /\
    MpuPitchRoll.pitch_buf w' =
      push_all MpuPitchRoll.WINDOW
        (map fst (decoded2 py_float (taken (MpuPitchRoll.ser w) (5 * n))))
        (MpuPitchRoll.pitch_buf w) /\
    MpuPitchRoll.roll_buf w' =
      push_all MpuPitchRoll.WINDOW
        (map snd (decoded2 py_float (taken (MpuPitchRoll.ser w) (5 * n))))
        (MpuPitchRoll.roll_buf w).
Proof.
  induction n as [|n IH]; intros w Hw.
  - exists w; cbn [MpuPitchRoll.run]. split; [ reflexivity | split; [ exact Hw | ] ].
    replace (5 * 0)%nat with 0%nat by lia. rewrite Nat.add_0_r.
    destruct w as [[l r] pb rb ls c]; repeat split.
  - destruct (update2_spec py_float w Hw) as (w1 & U & Hw1 & Hs & Hp & Hr & _).
    destruct (IH w1 Hw1) as (w' & Hrun & Hw' & Hs' & Hp' & Hr').
    exists w'. cbn [MpuPitchRoll.run]. rewrite U; cbn [bind].
    split; [ exact Hrun | split; [ exact Hw' | ] ].
    replace (5 * S n)%nat with (5 + 5 * n)%nat by lia.
    rewrite taken_app, decoded2_app, !map_app, !push_all_app.
    rewrite <- Hs, <- Hp, <- Hr, <- Hp', <- Hr', Hs', Hs.
    cbn [pending reads]. rewrite skipn_skipn.
    replace (5 * n + 5)%nat with (5 + 5 * n)%nat by lia.
    replace (reads (MpuPitchRoll.ser w) + 5 + 5 * n)%nat
      with (reads (MpuPitchRoll.ser w) + (5 + 5 * n))%nat by lia.
    repeat split.
Qed.

End Run2.

(** C7.  Starting from the empty buffer, after any run of pushes the buffer
    holds at most [window] samples, namely the last [window] that were pushed,
    in the order pushed: with a window of 3, pushing a, b, c, d leaves
    [b; c; d] and the latest sample is d.  The latest sample of the empty
    buffer is nothing, both buffers of the program start empty, and after any
    number of ticks they hold at most [WINDOW] samples, the pitch buffer being
    the last [WINDOW] pitch values decoded. *)
Theorem C7_sample_buffer :
  forall (A : Type) (window : nat),
    (forall xs : list A,
        (length (push_all window xs []) <= window)%nat /\
        push_all window xs [] = lastn window xs) /\
    (forall a b c d : A,
        push_all 3 [a; b; c; d] [] = [b; c; d] /\
        MpuPitchRoll.latest (push_all 3 [a; b; c; d] []) = Some d) /\
    MpuPitchRoll.latest (@nil A) = None /\
    (forall feed : list str,
        MpuPitchRoll.pitch_buf (MpuPitchRoll.startup feed) = [] /\
        MpuPitchRoll.roll_buf (MpuPitchRoll.startup feed) = []) /\
    (forall (py_float : str -> option R) (feed : list str) (n : nat),
        exists w,
          MpuPitchRoll.run py_float n (MpuPitchRoll.startup feed) = Ok w /\
          (length (MpuPitchRoll.pitch_buf w) <= MpuPitchRoll.WINDOW)%nat /\
          (length (MpuPitchRoll.roll_buf w) <= MpuPitchRoll.WINDOW)%nat /\
          MpuPitchRoll.pitch_buf w =
            lastn MpuPitchRoll.WINDOW
                  (map fst (decoded2 py_float (taken (open feed) (5 * n))))).
Proof.
  intros A window; split; [ | split; [ | split; [ | split ] ] ].
  - intros xs. rewrite push_all_lastn by (simpl; lia).
    split; [ apply lastn_length | reflexivity ].
  - intros a b c d; split; reflexivity.
  - reflexivity.
  - intros feed; split; reflexivity.
  - intros py_float feed n.
    destruct (run2_spec py_float n _ (startup2_steady feed))
      as (w & Hrun & _ & _ & Hp & Hr).
    cbn [MpuPitchRoll.startup MpuPitchRoll.ser MpuPitchRoll.pitch_buf
         MpuPitchRoll.roll_buf] in Hp, Hr.
    rewrite push_all_lastn in Hp, Hr by (simpl; lia).
    exists w. rewrite Hp, Hr. cbn [app].
    repeat split; [ exact Hrun | apply lastn_length | apply lastn_length ].
Qed.

(** C10.  After any number of ticks from startup the two buffers are the
    pitch and the roll components of one list of samples, the last [WINDOW]
    samples found in the lines read so far, in order: the buffers have the same
    length, and at every index the pitch and the roll are the two values
    [parse_line] returned for one and the same line. *)
Theorem C10_buffers_in_lockstep :
  forall (py_float : str -> option R) (feed : list str) (n : nat),
  exists w,
    MpuPitchRoll.run py_float n (MpuPitchRoll.startup feed) = Ok w /\
    let read := taken (open feed) (5 * n) in
    let samples := lastn MpuPitchRoll.WINDOW (decoded2 py_float read) in
    MpuPitchRoll.pitch_buf w = map fst samples /\
    MpuPitchRoll.roll_buf w = map snd samples /\
    length (MpuPitchRoll.pitch_buf w) = length (MpuPitchRoll.roll_buf w) /\
    Forall2 (fun pitch roll =>
               exists line,
                 In line read /\
                 MpuPitchRoll.parse_line py_float line = (pitch, roll) /\
                 pitch <> None /\ roll <> None)
            (MpuPitchRoll.pitch_buf w) (MpuPitchRoll.roll_buf w).
Proof.
  intros py_float feed n.
  destruct (run2_spec py_float n _ (startup2_steady feed))
    as (w & Hrun & _ & _ & Hp & Hr).
  exists w; split; [ exact Hrun | ].
  cbn [MpuPitchRoll.startup MpuPitchRoll.ser MpuPitchRoll.pitch_buf
       MpuPitchRoll.roll_buf] in Hp, Hr.
  intros read samples.
  assert (Ep : MpuPitchRoll.pitch_buf w = map fst samples).
  { rewrite Hp. change (@nil pyval) with (map (@fst pyval pyval) []).
    rewrite push_all_map, push_all_lastn by (simpl; lia). reflexivity. }
  assert (Er : MpuPitchRoll.roll_buf w = map snd samples).
  { rewrite Hr. change (@nil pyval) with (map (@snd pyval pyval) []).
    rewrite push_all_map, push_all_lastn by (simpl; lia). reflexivity. }
  split; [ exact Ep | split; [ exact Er | ] ].
  rewrite Ep, Er. split; [ rewrite !length_map; reflexivity | ].
  apply Forall2_fst_snd. subst samples. apply Forall_lastn.
  eapply Forall_impl; [ | apply decoded2_origin ].
  intros [p r] (line & Hin & _ & Hparse & Hp' & Hr').
  exists line; auto.
Qed.

(** ** The transformed meshes *)


(** The apex of the beak, in the local frame. *)
Lemma beak_faces_apex :
  exists b0 b1,
    nth_error Mpu60503d.beak_faces 0 = Some [b0; b1; V3 0 0.18 (0.35 + 0.07)].
Proof.
  unfold Mpu60503d.beak_faces, Mpu60503d.create_cone.
  rewrite nth_error_map_seq by lia.
  do 2 eexists; reflexivity.
Qed.

(** Whatever the state, a tick of the 3-axis program that decodes a sample
    leaves the three meshes as they were and ends in [AttributeError]. *)
Lemma update3_sample_leaves_meshes (py_float : str -> option R)
      (w : Mpu60503d.world) (i : nat) :
  (i < 3)%nat ->
  (forall j, (j < i)%nat ->
             decodes3 py_float (upcoming (Mpu60503d.ser w) j) = false) ->
  decodes3 py_float (upcoming (Mpu60503d.ser w) i) = true ->
  exists w',
    Mpu60503d.update py_float w = (w', Raise AttributeError) /\
    Mpu60503d.body_poly w' = Mpu60503d.body_poly w /\
    Mpu60503d.head_poly w' = Mpu60503d.head_poly w /\
    Mpu60503d.beak_poly w' = Mpu60503d.beak_poly w.
Proof.
  intros Hi Hbefore Hat.
  destruct (decodes3_floats py_float _ Hat) as (y & p & r & E).
  eexists; split; [ apply (update3_applying py_float w i y p r Hi Hbefore E) | ].
  repeat split.
Qed.

(** C1 fails in the 3-axis program.  One tick that decodes the line 90,0,0:
    the three texts are set to the sample, then [rotate_poly] raises
    [AttributeError] at [get_verts], before any [set_verts].  The meshes held
    by the collections are still those built at startup: the apex of the beak
    is at (0, 0.18, 0.42), where the matrix of the sample sends it to
    (-0.18, 0, 0.42). *)
Theorem C1_update_raises_before_rotating :
  let m := Mpu60503d.rotation_matrix 90 0 0 in
  exists w,
    Mpu60503d.update decimal_float (Mpu60503d.startup quarter_turns) =
      (w, Raise AttributeError) /\
    Mpu60503d.yaw_text w = Some 90 /\
    Mpu60503d.pitch_text w = Some 0 /\
    Mpu60503d.roll_text w = Some 0 /\
    Mpu60503d.sink_calls w = 3%nat /\
    Mpu60503d.body_poly w = Mpu60503d.body_faces /\
    Mpu60503d.head_poly w = Mpu60503d.head_faces /\
    Mpu60503d.beak_poly w = Mpu60503d.beak_faces /\
    (exists v0 v1,
        nth_error (Mpu60503d.beak_poly w) 0 = Some [v0; v1; V3 0 0.18 0.42]) /\
    (exists v0 v1,
        nth_error (transformed m Mpu60503d.beak_faces) 0 =
        Some [v0; v1; V3 (-0.18) 0 0.42]) /\
    Mpu60503d.beak_poly w <> transformed m Mpu60503d.beak_faces.
Proof.
  intros m.
  set (w0 := Mpu60503d.startup quarter_turns).
  pose proof (update3_applying decimal_float w0 0 90 0 0 ltac:(lia)
                ltac:(intros j Hj; lia) parse_quarter_turn) as U1.
  set (w1 := Mpu60503d.MkWorld _ _ _ _ _ _ _ _) in U1.
  destruct beak_faces_apex as (b0 & b1 & Hapex).
  unfold Mpu60503d.face in *.
  assert (H0 : nth_error (Mpu60503d.beak_poly w1) 0 =
               Some [b0; b1; V3 0 0.18 0.42]).
  { subst w1 w0. cbn [Mpu60503d.beak_poly Mpu60503d.startup].
    etransitivity; [ exact Hapex | ].
    do 4 f_equal. apply vec3_eq; cbn [vx vy vz]; lra. }
  assert (H1 : nth_error (transformed m Mpu60503d.beak_faces) 0 =
               Some [apply m b0; apply m b1; V3 (-0.18) 0 0.42]).
  { unfold transformed. rewrite nth_error_map, Hapex.
    cbn [option_map map]. do 4 f_equal.
    subst m. rewrite quarter_yaw. cbn [vx vy vz].
    apply vec3_eq; cbn [vx vy vz]; lra. }
  exists w1.
  split; [ exact U1 | ].
  do 7 (split; [ reflexivity | ]).
  split; [ do 2 eexists; exact H0 | ].
  split; [ do 2 eexists; exact H1 | ].
  intros E. rewrite E in H0.
  pose proof (eq_trans (eq_sym H1) H0) as X.
  inversion X. lra.
Qed.

(** * Further properties of the programs *)

(** ** The decoder and white space *)

Lemma lstrip_blank (ws : str) : blank ws -> lstrip ws = [].
Proof. induction 1 as [|c ws Hc _ IH]; simpl; [ | rewrite Hc ]; auto. Qed.

Lemma lstrip_app_blank (ws s : str) : blank ws -> lstrip (ws ++ s) = lstrip s.
Proof. induction 1 as [|c ws Hc _ IH]; simpl; [ | rewrite Hc ]; auto. Qed.

Lemma rstrip_app_blank (s ws : str) : blank ws -> rstrip (s ++ ws) = rstrip s.
Proof.
  intros H; unfold rstrip. rewrite rev_app_distr, lstrip_app_blank; auto.
  apply Forall_rev; exact H.
Qed.

Lemma rstrip_blank (ws : str) : blank ws -> rstrip ws = [].
Proof.
  intros H; unfold rstrip. rewrite lstrip_blank; [ reflexivity | ].
  apply Forall_rev; exact H.
Qed.

Lemma strip_blank_around (ws1 ws2 s : str) :
  blank ws1 -> blank ws2 -> strip (ws1 ++ s ++ ws2) = strip s.
Proof.
  intros H1 H2; unfold strip. rewrite lstrip_app_blank by exact H1.
  induction s as [|c s IH]; simpl.
  - rewrite lstrip_blank by exact H2. reflexivity.
  - destruct (isspace c); [ exact IH | ].
    change (c :: s ++ ws2) with ((c :: s) ++ ws2).
    apply rstrip_app_blank; exact H2.
Qed.

(** X1.  White space around a line does not matter to either decoder: a
    line with blanks before it and blanks or line ends after it decodes to
    what the bare line decodes to. *)
Theorem X1_parse_line_ignores_surrounding_blanks :
  forall (py_float : str -> option R) (ws1 ws2 line : str),
    blank ws1 -> blank ws2 ->
    Mpu60503d.parse_line py_float (ws1 ++ line ++ ws2) =
      Mpu60503d.parse_line py_float line /\
    MpuPitchRoll.parse_line py_float (ws1 ++ line ++ ws2) =
      MpuPitchRoll.parse_line py_float line.
Proof.
  intros py_float ws1 ws2 line H1 H2.
  unfold Mpu60503d.parse_line, Mpu60503d.parse_line_try,
    MpuPitchRoll.parse_line, MpuPitchRoll.parse_line_try.
  rewrite strip_blank_around by assumption. split; reflexivity.
Qed.

(** A space before the line, carriage return and newline after it. *)
Lemma X1_parse_line_ignores_surrounding_blanks_witness :
  blank [32%N] /\ blank [13%N; 10%N] /\
  Mpu60503d.parse_line decimal_float
    ([32%N] ++ of_string "5,10,15" ++ [13%N; 10%N]) =
  Mpu60503d.parse_line decimal_float (of_string "5,10,15").
Proof.
  assert (B1 : blank [32%N]) by (repeat constructor).
  assert (B2 : blank [13%N; 10%N]) by (repeat constructor).
  split; [ exact B1 | split; [ exact B2 | ] ].
  exact (proj1 (X1_parse_line_ignores_surrounding_blanks
                  decimal_float _ _ (of_string "5,10,15") B1 B2)).
Defined.

(** X2.  The two wire formats overlap: every line the 3-axis decoder accepts
    is accepted by the 2-axis decoder as well, which takes the yaw field as
    pitch and the pitch field as roll. *)
Theorem X2_three_field_line_in_two_axis_decoder :
  forall (py_float : str -> option R) (line : str) (y p r : R),
    Mpu60503d.parse_line py_float line = (Some y, Some p, Some r) ->
    MpuPitchRoll.parse_line py_float line = (Some y, Some p).
Proof.
  intros py_float line y p r.
  rewrite parse_line3_spec, parse_line2_spec.
  unfold well_formed3, well_formed2, field, numeric, fields.
  destruct (split comma (strip line)) as [|a [|b [|c [|d l]]]]; simpl;
    try discriminate.
  destruct (py_float a); simpl; [ | discriminate ].
  destruct (py_float b); simpl; [ | discriminate ].
  destruct (py_float c); simpl; [ | discriminate ].
  intros H; inversion H; reflexivity.
Qed.

Lemma X2_three_field_line_in_two_axis_decoder_witness :
  Mpu60503d.parse_line decimal_float (line_of "5,10,15") =
    (Some 5, Some 10, Some 15) /\
  MpuPitchRoll.parse_line decimal_float (line_of "5,10,15") = (Some 5, Some 10).
Proof.
  split; [ exact parse_noisy_2 | ].
  exact (X2_three_field_line_in_two_axis_decoder
           decimal_float (line_of "5,10,15") 5 10 15 parse_noisy_2).
Defined.

(** ** The rotation composer *)

Ltac mat_entries :=
  repeat match goal with
         | m : mat3 |- _ => destruct m
         | v : vec3 |- _ => destruct v
         end;
  unfold dist2, norm2, vsub, matmul, transpose, vecmat, apply, col0, col1,
    col2, dot, det, identity;
  cbn [vx vy vz row0 row1 row2];
  first [ ring
        | apply mat3_eq; apply vec3_eq; cbn [vx vy vz row0 row1 row2]; ring
        | apply vec3_eq; cbn [vx vy vz]; ring ].

Lemma matmul_identity_l (a : mat3) : matmul identity a = a.
Proof. mat_entries. Qed.

Lemma apply_identity (v : vec3) : apply identity v = v.
Proof. mat_entries. Qed.

Lemma Rot_x_0 : Rot_x 0 = identity.
Proof. unfold Rot_x, identity; rewrite cos_0, sin_0, Ropp_0; reflexivity. Qed.

Lemma Rot_y_0 : Rot_y 0 = identity.
Proof. unfold Rot_y, identity; rewrite cos_0, sin_0, Ropp_0; reflexivity. Qed.

Lemma Rot_z_0 : Rot_z 0 = identity.
Proof. unfold Rot_z, identity; rewrite cos_0, sin_0, Ropp_0; reflexivity. Qed.

Lemma radians_plus (a b : R) : radians (a + b) = radians a + radians b.
Proof. unfold radians; field. Qed.

Lemma radians_minus (a b : R) : radians (a - b) = radians a - radians b.
Proof. unfold radians; field. Qed.

Lemma radians_360 : radians 360 = 2 * PI.
Proof. unfold radians; field. Qed.

Lemma cos_turn (x : R) : cos (x + 2 * PI) = cos x.
Proof. rewrite cos_plus, cos_2PI, sin_2PI; ring. Qed.

Lemma sin_turn (x : R) : sin (x + 2 * PI) = sin x.
Proof. rewrite sin_plus, cos_2PI, sin_2PI; ring. Qed.

Lemma Rot_x_turn (t : R) : Rot_x (t + 2 * PI) = Rot_x t.
Proof. unfold Rot_x; rewrite cos_turn, sin_turn; reflexivity. Qed.

Lemma Rot_y_turn (t : R) : Rot_y (t + 2 * PI) = Rot_y t.
Proof. unfold Rot_y; rewrite cos_turn, sin_turn; reflexivity. Qed.

Lemma Rot_z_turn (t : R) : Rot_z (t + 2 * PI) = Rot_z t.
Proof. unfold Rot_z; rewrite cos_turn, sin_turn; reflexivity. Qed.

(** X4.  Angles are taken modulo a full turn: adding 360 degrees to yaw, to
    pitch or to roll does not change the matrix, in either program. *)
Theorem X4_rotation_matrix_full_turn :
  forall yaw pitch roll : R,
    Mpu60503d.rotation_matrix (yaw + 360) pitch roll =
      Mpu60503d.rotation_matrix yaw pitch roll /\
    Mpu60503d.rotation_matrix yaw (pitch + 360) roll =
      Mpu60503d.rotation_matrix yaw pitch roll /\
    Mpu60503d.rotation_matrix yaw pitch (roll + 360) =
      Mpu60503d.rotation_matrix yaw pitch roll /\
    MpuPitchRoll.rotation_matrix (pitch + 360) roll =
      MpuPitchRoll.rotation_matrix pitch roll /\
    MpuPitchRoll.rotation_matrix pitch (roll + 360) =
      MpuPitchRoll.rotation_matrix pitch roll.
Proof.
  intros yaw pitch roll.
  rewrite !rotation_matrix3_factors, !rotation_matrix2_factors.
  rewrite !radians_plus, radians_360.
  rewrite Rot_x_turn, Rot_y_turn, Rot_z_turn.
  repeat split.
Qed.

Lemma rotation_matrix2_as_rotation_matrix3 (pitch roll : R) :
  MpuPitchRoll.rotation_matrix pitch roll =
  Mpu60503d.rotation_matrix 0 pitch roll.
Proof.
  rewrite rotation_matrix3_factors, rotation_matrix2_factors.
  rewrite radians_0, Rot_z_0, matmul_identity_l. reflexivity.
Qed.

(** X5.  The 2-axis composer is the 3-axis composer with yaw 0: for every
    pitch and roll the two programs turn a vertex the same way when the
    3-axis one is given yaw 0. *)
Theorem X5_two_axis_is_three_axis_without_yaw :
  forall (pitch roll : R) (v : vec3),
    MpuPitchRoll.rotation_matrix pitch roll =
      Mpu60503d.rotation_matrix 0 pitch roll /\
    vecmat v (transpose (MpuPitchRoll.rotation_matrix pitch roll)) =
      vecmat v (transpose (Mpu60503d.rotation_matrix 0 pitch roll)).
Proof.
  intros pitch roll v.
  rewrite rotation_matrix2_as_rotation_matrix3. split; reflexivity.
Qed.

(** X6.  At a pitch of 90 degrees yaw and roll turn about the same axis: the
    matrix depends on roll minus yaw only. *)
Theorem X6_gimbal_lock_at_pitch_90 :
  forall yaw roll : R,
    Mpu60503d.rotation_matrix yaw 90 roll =
    Mpu60503d.rotation_matrix 0 90 (roll - yaw).
Proof.
  intros yaw roll.
  rewrite !rotation_matrix3_factors, radians_minus, radians_0, radians_90.
  unfold Rot_x, Rot_y, Rot_z.
  rewrite cos_minus, sin_minus, cos_0, sin_0, cos_PI2, sin_PI2.
  unfold matmul, vecmat, col0, col1, col2, dot; cbn [vx vy vz row0 row1 row2].
  apply mat3_eq; apply vec3_eq; cbn [vx vy vz row0 row1 row2]; ring.
Qed.

(** Rotations about the vertical axis add up. *)
Lemma yaw_compose (a b : R) :
  matmul (Mpu60503d.rotation_matrix a 0 0) (Mpu60503d.rotation_matrix b 0 0) =
  Mpu60503d.rotation_matrix (a + b) 0 0.
Proof.
  rewrite !rotation_matrix3_factors, radians_0, Rot_x_0, Rot_y_0.
  rewrite !matmul_identity_r, radians_plus.
  unfold Rot_z. rewrite cos_plus, sin_plus.
  unfold matmul, vecmat, col0, col1, col2, dot; cbn [vx vy vz row0 row1 row2].
  apply mat3_eq; apply vec3_eq; cbn [vx vy vz row0 row1 row2]; ring.
Qed.

(** ** Rigid motion *)

(** A matrix with [m.T @ m = I]. *)
Lemma dot_apply (m : mat3) (u v : vec3) :
  dot (apply m u) (apply m v) = dot u (apply (matmul (transpose m) m) v).
Proof. mat_entries. Qed.

Lemma left_inverse_matmul (a b : mat3) :
  matmul (transpose a) a = identity ->
  matmul (transpose b) b = identity ->
  matmul (transpose (matmul a b)) (matmul a b) = identity.
Proof.
  intros Ha Hb.
  rewrite transpose_matmul, matmul_assoc, <- (matmul_assoc (transpose a)), Ha.
  rewrite matmul_identity_l. exact Hb.
Qed.

Lemma left_inverse_Rot_x (t : R) :
  matmul (transpose (Rot_x t)) (Rot_x t) = identity.
Proof.
  pose proof (sq_sum t) as H. unfold Rot_x.
  apply mat3_eq; apply vec3_eq;
    unfold matmul, transpose, vecmat, col0, col1, col2, dot, identity;
    simpl; nra.
Qed.

Lemma left_inverse_Rot_y (t : R) :
  matmul (transpose (Rot_y t)) (Rot_y t) = identity.
Proof.
  pose proof (sq_sum t) as H. unfold Rot_y.
  apply mat3_eq; apply vec3_eq;
    unfold matmul, transpose, vecmat, col0, col1, col2, dot, identity;
    simpl; nra.
Qed.

Lemma left_inverse_Rot_z (t : R) :
  matmul (transpose (Rot_z t)) (Rot_z t) = identity.
Proof.
  pose proof (sq_sum t) as H. unfold Rot_z.
  apply mat3_eq; apply vec3_eq;
    unfold matmul, transpose, vecmat, col0, col1, col2, dot, identity;
    simpl; nra.
Qed.

Lemma left_inverse_rotation3 (yaw pitch roll : R) :
  let m := Mpu60503d.rotation_matrix yaw pitch roll in
  matmul (transpose m) m = identity.
Proof.
  cbv zeta. rewrite rotation_matrix3_factors.
  apply left_inverse_matmul; [ apply left_inverse_matmul | ];
    auto using left_inverse_Rot_x, left_inverse_Rot_y, left_inverse_Rot_z.
Qed.

Lemma left_inverse_rotation2 (pitch roll : R) :
  let m := MpuPitchRoll.rotation_matrix pitch roll in
  matmul (transpose m) m = identity.
Proof.
  cbv zeta. rewrite rotation_matrix2_as_rotation_matrix3.
  apply left_inverse_rotation3.
Qed.

Lemma apply_keeps_dot (m : mat3) (u v : vec3) :
  matmul (transpose m) m = identity ->
  dot (apply m u) (apply m v) = dot u v.
Proof. intros H. rewrite dot_apply, H, apply_identity. reflexivity. Qed.

Lemma apply_vsub (m : mat3) (u v : vec3) :
  vsub (apply m u) (apply m v) = apply m (vsub u v).
Proof. mat_entries. Qed.

Lemma apply_keeps_dist2 (m : mat3) (u v : vec3) :
  matmul (transpose m) m = identity ->
  dist2 (apply m u) (apply m v) = dist2 u v.
Proof.
  intros H. unfold dist2, norm2. rewrite apply_vsub. apply apply_keeps_dot, H.
Qed.

(** X7.  The matrices of both programs move vertices rigidly: the transpose
    undoes the matrix on either side, and scalar products, and with them
    lengths and distances between vertices, are kept; this holds in the
    row-vector form [v @ R.T] that the programs use. *)
Theorem X7_rotation_is_rigid :
  forall (yaw pitch roll : R) (u v : vec3),
    let m3 := Mpu60503d.rotation_matrix yaw pitch roll in
    let m2 := MpuPitchRoll.rotation_matrix pitch roll in
    matmul (transpose m3) m3 = identity /\
    matmul (transpose m2) m2 = identity /\
    dot (vecmat u (transpose m3)) (vecmat v (transpose m3)) = dot u v /\
    dot (vecmat u (transpose m2)) (vecmat v (transpose m2)) = dot u v /\
    dist2 (vecmat u (transpose m3)) (vecmat v (transpose m3)) = dist2 u v /\
    dist2 (vecmat u (transpose m2)) (vecmat v (transpose m2)) = dist2 u v /\
    vecmat (vecmat v (transpose m3)) m3 = v /\
    vecmat (vecmat v (transpose m2)) m2 = v.
Proof.
  intros yaw pitch roll u v m3 m2.
  pose proof (left_inverse_rotation3 yaw pitch roll) as H3.
  pose proof (left_inverse_rotation2 pitch roll) as H2.
  cbv zeta in H3, H2. fold m3 in H3. fold m2 in H2.
  rewrite !vecmat_transpose.
  split; [ exact H3 | split; [ exact H2 | ] ].
  split; [ apply apply_keeps_dot, H3 | ].
  split; [ apply apply_keeps_dot, H2 | ].
  split; [ apply apply_keeps_dist2, H3 | ].
  split; [ apply apply_keeps_dist2, H2 | ].
  assert (Hback : forall m w, matmul (transpose m) m = identity ->
                              vecmat (apply m w) m = w).
  { intros m w H.
    replace (vecmat (apply m w) m) with (apply (matmul (transpose m) m) w)
      by mat_entries.
    rewrite H. apply apply_identity. }
  split; apply Hback; assumption.
Qed.

(** ** The shape of the generated meshes *)

Lemma sphere_vert_dist2 (center : vec3) (radius : R) (res i j : nat) :
  dist2 (Mpu60503d.sphere_vert center radius res i j) center = radius * radius.
Proof.
  rewrite <- (sphere_vert_on_sphere center radius res i j).
  unfold dist2, norm2, vsub, dot; cbn [vx vy vz]. reflexivity.
Qed.

(** X8.  Every vertex of every face that [create_sphere] returns lies on the
    sphere of the given centre and radius, whatever the resolution. *)
Theorem X8_sphere_vertices_on_sphere :
  forall (center : vec3) (radius : R) (res : nat),
    Forall (Forall (fun v => dist2 v center = radius * radius))
           (Mpu60503d.create_sphere center radius res).
Proof.
  intros center radius res. rewrite create_sphere_nested.
  apply nested_Forall; intros i j _ _.
  repeat constructor; apply sphere_vert_dist2.
Qed.

Lemma mgrid_first (stop : R) (res : nat) : Mpu60503d.mgrid stop res 0 = 0.
Proof. unfold Mpu60503d.mgrid; cbn [INR]; ring. Qed.

Lemma mgrid_last (stop : R) (res : nat) :
  (2 <= res)%nat -> Mpu60503d.mgrid stop res (res - 1) = stop.
Proof.
  intros H; unfold Mpu60503d.mgrid. field.
  apply not_0_INR; lia.
Qed.

(** X9.  The grid of [create_sphere] includes both end points of both
    angles.  For a resolution of at least 2, row 0 is the north pole and the
    last row the south pole, for every column, so the quads of the first and
    of the last row of cells have two coinciding vertices; and the last
    column repeats column 0, so the sphere closes along the seam. *)
Theorem X9_sphere_poles_and_seam :
  forall (center : vec3) (radius : R) (res : nat),
    (2 <= res)%nat ->
    let verts := Mpu60503d.sphere_vert center radius res in
    let faces := Mpu60503d.create_sphere center radius res in
    let north := V3 (vx center) (vy center) (vz center + radius) in
    let south := V3 (vx center) (vy center) (vz center - radius) in
    (forall j, verts 0%nat j = north) /\
    (forall j, verts (res - 1)%nat j = south) /\
    (forall i, verts i (res - 1)%nat = verts i 0%nat) /\
    (forall j, (j < res - 1)%nat ->
        nth_error faces j =
        Some [north; verts 1%nat j; verts 1%nat (j + 1)%nat; north]) /\
    (forall j, (j < res - 1)%nat ->
        nth_error faces ((res - 2) * (res - 1) + j) =
        Some [verts (res - 2)%nat j; south; south;
              verts (res - 2)%nat (j + 1)%nat]).
Proof.
  intros center radius res Hres verts faces north south.
  assert (HN : forall j, verts 0%nat j = north).
  { intros j. apply sphere_vert_north_pole. }
  assert (HS : forall j, verts (res - 1)%nat j = south).
  { intros j. subst verts south. unfold Mpu60503d.sphere_vert.
    rewrite mgrid_last by exact Hres. rewrite sin_PI, cos_PI.
    apply vec3_eq; cbn [vx vy vz]; ring. }
  assert (HW : forall i, verts i (res - 1)%nat = verts i 0%nat).
  { intros i. subst verts. unfold Mpu60503d.sphere_vert.
    rewrite mgrid_last by exact Hres. rewrite mgrid_first.
    rewrite cos_2PI, sin_2PI, cos_0, sin_0. reflexivity. }
  split; [ exact HN | split; [ exact HS | split; [ exact HW | split ] ] ].
  - intros j Hj. subst faces. rewrite create_sphere_nested.
    change j with (0 * (res - 1) + j)%nat at 1.
    rewrite nested_nth_error by lia.
    cbn [Nat.add]. fold verts. rewrite !HN. reflexivity.
  - intros j Hj. subst faces. rewrite create_sphere_nested.
    rewrite nested_nth_error by lia.
    cbn [Nat.add]. fold verts.
    replace (res - 2 + 1)%nat with (res - 1)%nat by lia.
    rewrite !HS. reflexivity.
Qed.

(** A sphere of resolution 3 about the origin: its first face starts and
    ends at the north pole. *)
Lemma X9_sphere_poles_and_seam_witness :
  (2 <= 3)%nat /\
  (forall j,
      Mpu60503d.sphere_vert (V3 0 0 0) 1 3 0 j = V3 0 0 (0 + 1)) /\
  (forall i,
      Mpu60503d.sphere_vert (V3 0 0 0) 1 3 i 2 =
      Mpu60503d.sphere_vert (V3 0 0 0) 1 3 i 0).
Proof.
  split; [ lia | ].
  pose proof (X9_sphere_poles_and_seam (V3 0 0 0) 1 3 ltac:(lia)) as H.
  cbv zeta in H. destruct H as (HN & _ & HW & _).
  split; [ exact HN | exact HW ].
Defined.

Lemma cone_base_dist2 (a b radius : R) (c : vec3) :
  dist2 (V3 (vx c + radius * cos a) (vy c + radius * sin a) (vz c))
        (V3 (vx c + radius * cos b) (vy c + radius * sin b) (vz c)) =
  2 * (radius * radius) * (1 - cos (a - b)).
Proof.
  rewrite cos_minus.
  pose proof (sq_sum a) as Ha. pose proof (sq_sum b) as Hb.
  unfold dist2, norm2, vsub, dot; cbn [vx vy vz].
  transitivity
    (radius * radius *
     ((cos a * cos a + sin a * sin a) + (cos b * cos b + sin b * sin b)
      - 2 * (cos a * cos b + sin a * sin b))); [ ring | ].
  rewrite Ha, Hb. ring.
Qed.

(** X10.  The base of the cone is a regular polygon and the fan is closed by
    a face like the others: every base point lies in the base plane at the
    given radius from the base centre, and in every face, the last one
    included, the two base points are the same distance apart, the chord of
    one [res]-th of a turn. *)
Theorem X10_cone_base_is_regular :
  forall (base_center : vec3) (height radius : R) (res : nat),
    Forall (fun f =>
              exists a b,
                f = [a; b; Mpu60503d.cone_tip base_center height] /\
                dist2 a base_center = radius * radius /\
                dist2 b base_center = radius * radius /\
                vz a = vz base_center /\ vz b = vz base_center /\
                dist2 a b =
                  2 * (radius * radius) * (1 - cos (2 * PI / INR res)))
           (Mpu60503d.create_cone base_center height radius res).
Proof.
  intros c height radius res. unfold Mpu60503d.create_cone.
  apply Forall_map, Forall_forall; intros i Hi. apply in_seq in Hi.
  assert (Hres : INR res <> 0) by (apply not_0_INR; lia).
  assert (Hcircle : forall k,
             dist2 (Mpu60503d.cone_base c radius res k) c = radius * radius).
  { intros k. rewrite <- (proj1 (cone_base_on_circle c radius res k)).
    unfold dist2, norm2, vsub, dot, Mpu60503d.cone_base; cbn [vx vy vz].
    ring. }
  do 2 eexists. split; [ reflexivity | ].
  split; [ apply Hcircle | split; [ apply Hcircle | ] ].
  split; [ reflexivity | split; [ reflexivity | ] ].
  unfold Mpu60503d.cone_base. rewrite cone_base_dist2. do 2 f_equal.
  unfold Mpu60503d.linspace_open.
  destruct (Nat.eq_dec (i + 1) res) as [E|E].
  - rewrite E, Nat.Div0.mod_same. cbn [INR]. rewrite Rmult_0_l, Rminus_0_r.
    replace (INR i * (2 * PI / INR res)) with (- (2 * PI / INR res) + 2 * PI).
    + rewrite cos_turn. apply cos_neg.
    + replace (INR i) with (INR res - 1)
        by (rewrite <- E, plus_INR; cbn [INR]; ring).
      field; exact Hres.
  - rewrite Nat.mod_small by lia. rewrite plus_INR; cbn [INR].
    replace (INR i * (2 * PI / INR res) - (INR i + 1) * (2 * PI / INR res))
      with (- (2 * PI / INR res)) by (field; exact Hres).
    apply cos_neg.
Qed.

(** ** Every tick of the 3-axis program *)

Section EveryTick3.

Variable py_float : str -> option R.




End EveryTick3.


(** ** The port is drained in order *)

(** X15.  The 2-axis program consumes the port in order and at a fixed rate:
    after [n] ticks from startup it has made exactly [5 n] reads, and what is
    left in the port is the feed without its first [5 n] lines, so no line is
    skipped and none is read twice. *)
Theorem X15_two_axis_port_is_drained_in_order :
  forall (py_float : str -> option R) (feed : list str) (n : nat),
  exists w,
    MpuPitchRoll.run py_float n (MpuPitchRoll.startup feed) = Ok w /\
    reads (MpuPitchRoll.ser w) = (5 * n)%nat /\
    pending (MpuPitchRoll.ser w) = skipn (5 * n) feed.
Proof.
  intros py_float feed n.
  destruct (run2_spec py_float n _ (startup2_steady feed))
    as (w & Hrun & _ & Hs & _).
  exists w. rewrite Hs. repeat split; assumption.
Qed.

(** ** What the 2-axis program shows *)

Lemma latest_push {X : Type} (window : nat) (x : X) (buf : list X) :
  (1 <= window)%nat ->
  MpuPitchRoll.latest (MpuPitchRoll.push window x buf) = Some x.
Proof.
  intros Hw. unfold MpuPitchRoll.push.
  destruct (Nat.ltb_spec window (length (buf ++ [x]))) as [H|H];
    [ | apply latest_app ].
  destruct buf as [|b buf]; [ simpl in H; lia | ].
  cbn [app tl]. apply latest_app.
Qed.

Lemma latest_push_all {X : Type} (window : nat) (xs : list X) (x : X)
      (buf : list X) :
  (1 <= window)%nat ->
  MpuPitchRoll.latest (push_all window (xs ++ [x]) buf) = Some x.
Proof.
  intros Hw. rewrite push_all_app. unfold push_all at 1; cbn [fold_left].
  apply latest_push, Hw.
Qed.

(** X16.  The 2-axis program shows the latest sample.  After any number of
    ticks from startup, if the lines read so far gave at least one sample,
    the twelve lines hold the box rotated by the last sample decoded, however
    many samples a tick read before it. *)
Theorem X16_box_shows_latest_sample :
  forall (py_float : str -> option R) (feed : list str) (n : nat)
         (earlier : list (pyval * pyval)) (p r : R),
    decoded2 py_float (taken (open feed) (5 * n)) = earlier ++ [(Some p, Some r)] ->
    exists w,
      MpuPitchRoll.run py_float n (MpuPitchRoll.startup feed) = Ok w /\
      MpuPitchRoll.latest (MpuPitchRoll.pitch_buf w) = Some (Some p) /\
      MpuPitchRoll.latest (MpuPitchRoll.roll_buf w) = Some (Some r) /\
      MpuPitchRoll.lines w = wireframe p r.
Proof.
  intros py_float feed n earlier p r H.
  destruct (run2_spec py_float n _ (startup2_steady feed))
    as (w & Hrun & Hw & _ & Hp & Hr).
  cbn [MpuPitchRoll.startup MpuPitchRoll.ser MpuPitchRoll.pitch_buf
       MpuPitchRoll.roll_buf] in Hp, Hr.
  rewrite H, map_app in Hp, Hr. cbn [map fst snd] in Hp, Hr.
  assert (Lp : MpuPitchRoll.latest (MpuPitchRoll.pitch_buf w) = Some (Some p)).
  { rewrite Hp. apply latest_push_all. unfold MpuPitchRoll.WINDOW; lia. }
  assert (Lr : MpuPitchRoll.latest (MpuPitchRoll.roll_buf w) = Some (Some r)).
  { rewrite Hr. apply latest_push_all. unfold MpuPitchRoll.WINDOW; lia. }
  exists w. split; [ exact Hrun | split; [ exact Lp | split; [ exact Lr | ] ] ].
  destruct Hw as (_ & _ & _ & _ & Hshow). apply Hshow; assumption.
Qed.

Lemma decoded2_backlog :
  decoded2 decimal_float (taken (open backlog) (5 * 1)) =
  [(Some 1, Some 2); (Some 3, Some 4); (Some 5, Some 6); (Some 7, Some 8)]
    ++ [(Some 9, Some 10)].
Proof. cbv -[IZR]. reflexivity. Qed.

(** A backlog of five samples: one tick reads them all and shows the
    fifth. *)
Lemma X16_box_shows_latest_sample_witness :
  decoded2 decimal_float (taken (open backlog) (5 * 1)) =
    [(Some 1, Some 2); (Some 3, Some 4); (Some 5, Some 6); (Some 7, Some 8)]
      ++ [(Some 9, Some 10)] /\
  exists w,
    MpuPitchRoll.run decimal_float 1 (MpuPitchRoll.startup backlog) = Ok w /\
    MpuPitchRoll.lines w = wireframe 9 10.
Proof.
  split; [ exact decoded2_backlog | ].
  destruct (X16_box_shows_latest_sample decimal_float backlog 1 _ 9 10
              decoded2_backlog) as (w & Hrun & _ & _ & Hl).
  exists w; split; [ exact Hrun | exact Hl ].
Defined.

Section Waiting2.

Variable py_float : str -> option R.

(** Ticks that find no sample, from a steady state with empty buffers. *)
Lemma run2_waiting (n : nat) : forall w : MpuPitchRoll.world,
  steady w ->
  MpuPitchRoll.pitch_buf w = [] ->
  decoded2 py_float (taken (MpuPitchRoll.ser w) (5 * n)) = [] ->
  exists w',
    MpuPitchRoll.run py_float n w = Ok w' /\
    MpuPitchRoll.pitch_buf w' = [] /\
    MpuPitchRoll.roll_buf w' = [] /\
    MpuPitchRoll.lines w' = MpuPitchRoll.lines w /\
    MpuPitchRoll.sink_calls w' = MpuPitchRoll.sink_calls w.
Proof.
  induction n as [|n IH]; intros w Hw Hp Hnone.
  - exists w; cbn [MpuPitchRoll.run]. repeat split; try assumption.
    destruct Hw as (Hlen & _). rewrite Hp in Hlen.
    destruct (MpuPitchRoll.roll_buf w); [ reflexivity | discriminate Hlen ].
  - replace (5 * S n)%nat with (5 + 5 * n)%nat in Hnone by lia.
    rewrite taken_app, decoded2_app in Hnone.
    apply app_eq_nil in Hnone as [H5 Hrest].
    destruct (update2_spec py_float w Hw)
      as (w1 & U & Hw1 & Hs1 & Hp1 & _ & Hempty & _).
    rewrite H5, Hp in Hp1. cbn in Hp1.
    destruct (Hempty Hp1) as [Hl1 Hc1].
    destruct (IH w1 Hw1 Hp1) as (w' & Hrun & Hp' & Hr' & Hl' & Hc').
    { rewrite Hs1. exact Hrest. }
    exists w'. cbn [MpuPitchRoll.run]. rewrite U; cbn [bind].
    repeat split; try assumption; congruence.
Qed.

End Waiting2.

(** X17.  The 2-axis program draws nothing until a sample arrives.  As long
    as none of the lines read since startup gave a sample, the buffers are
    empty, the twelve lines have no data, and no call has been made on a
    drawing object. *)
Theorem X17_nothing_drawn_before_first_sample :
  forall (py_float : str -> option R) (feed : list str) (n : nat),
    decoded2 py_float (taken (open feed) (5 * n)) = [] ->
    exists w,
      MpuPitchRoll.run py_float n (MpuPitchRoll.startup feed) = Ok w /\
      MpuPitchRoll.pitch_buf w = [] /\
      MpuPitchRoll.roll_buf w = [] /\
      MpuPitchRoll.lines w = blank_lines /\
      MpuPitchRoll.sink_calls w = 0%nat.
Proof.
  intros py_float feed n H.
  destruct (run2_waiting py_float n _ (startup2_steady feed) eq_refl H)
    as (w & Hrun & Hp & Hr & Hl & Hc).
  exists w; repeat split; assumption.
Qed.

(** Three ticks on a port that sends two lines of noise and then nothing. *)
Lemma X17_nothing_drawn_before_first_sample_witness :
  decoded2 decimal_float
    (taken (open (map line_of ["garbage"; "12"]%string)) (5 * 3)) = [] /\
  exists w,
    MpuPitchRoll.run decimal_float 3
      (MpuPitchRoll.startup (map line_of ["garbage"; "12"]%string)) = Ok w /\
    MpuPitchRoll.lines w = blank_lines /\
    MpuPitchRoll.sink_calls w = 0%nat.
Proof.
  assert (H : decoded2 decimal_float
                (taken (open (map line_of ["garbage"; "12"]%string)) (5 * 3))
              = []) by reflexivity.
  split; [ exact H | ].
  destruct (X17_nothing_drawn_before_first_sample decimal_float _ 3 H)
    as (w & Hrun & _ & _ & Hl & Hc).
  exists w; repeat split; assumption.
Defined.



(** ** Turning about one axis *)

Ltac rot_entries :=
  unfold matmul, vecmat, col0, col1, col2, dot; cbn [vx vy vz row0 row1 row2];
  apply mat3_eq; apply vec3_eq; cbn [vx vy vz row0 row1 row2]; ring.

Lemma Rot_x_plus (a b : R) : matmul (Rot_x a) (Rot_x b) = Rot_x (a + b).
Proof. unfold Rot_x. rewrite cos_plus, sin_plus. rot_entries. Qed.

Lemma Rot_y_plus (a b : R) : matmul (Rot_y a) (Rot_y b) = Rot_y (a + b).
Proof. unfold Rot_y. rewrite cos_plus, sin_plus. rot_entries. Qed.

Lemma Rot_z_plus (a b : R) : matmul (Rot_z a) (Rot_z b) = Rot_z (a + b).
Proof. unfold Rot_z. rewrite cos_plus, sin_plus. rot_entries. Qed.

(** X3.  Turns about one axis add up, in both programs: the product of the
    matrices of two samples that differ from zero in the same single angle
    is the matrix of the sample with the sum of the two angles, and the
    sample with all angles zero gives the identity. *)
Theorem X3_single_axis_turns_add :
  forall a b : R,
    matmul (Mpu60503d.rotation_matrix a 0 0) (Mpu60503d.rotation_matrix b 0 0) =
      Mpu60503d.rotation_matrix (a + b) 0 0 /\
    matmul (Mpu60503d.rotation_matrix 0 a 0) (Mpu60503d.rotation_matrix 0 b 0) =
      Mpu60503d.rotation_matrix 0 (a + b) 0 /\
    matmul (Mpu60503d.rotation_matrix 0 0 a) (Mpu60503d.rotation_matrix 0 0 b) =
      Mpu60503d.rotation_matrix 0 0 (a + b) /\
    matmul (MpuPitchRoll.rotation_matrix a 0) (MpuPitchRoll.rotation_matrix b 0) =
      MpuPitchRoll.rotation_matrix (a + b) 0 /\
    matmul (MpuPitchRoll.rotation_matrix 0 a) (MpuPitchRoll.rotation_matrix 0 b) =
      MpuPitchRoll.rotation_matrix 0 (a + b) /\
    Mpu60503d.rotation_matrix 0 0 0 = identity /\
    MpuPitchRoll.rotation_matrix 0 0 = identity.
Proof.
  intros a b.
  rewrite !rotation_matrix3_factors, !rotation_matrix2_factors.
  rewrite !radians_plus, !radians_0, !Rot_x_0, !Rot_y_0, !Rot_z_0.
  rewrite !matmul_identity_l, !matmul_identity_r.
  rewrite Rot_x_plus, Rot_y_plus, Rot_z_plus.
  repeat split.
Qed.
